(** * MarkdownGenerator: a shallow embedding of [markdowngenerator.py]

    The Python class [MarkdownGenerator] accumulates text fragments in
    [document_data_array] and offers formatting helpers on top of the two
    primitives [writeText] and [writeTextLine].  The embedding below keeps the
    names of the source.  Methods become functions in a small state and
    exception monad over the fields of the instance that the methods touch.

    Conventions of the embedding:
    - a Python [str] is a [string] of characters with code points below 128;
    - the values that reach the methods are [atom]s ([None], booleans,
      integers, strings) and lists of atoms, which is what the docstring of
      [addTable] expects ("only attributes inside dictionary, no nested
      objects");
    - a [dict] is an association list in insertion order;
    - the logger is a list of records, oldest first, each holding the level
      and the literal text of the message (interpolated values are left out).
*)

From Stdlib Require Import ZArith Ascii DecimalString Lia.
From Stdlib Require String.
From stdpp Require Import base option list strings gmap sorting.

(** ** Python values *)

Inductive atom : Type :=
| ANone
| ABool (b : bool)
| AInt (z : Z)
| AStr (s : string).

Inductive pyval : Type :=
| PAtom (a : atom)
| PList (items : list atom).

(** An element of [dictionary_list]: a [dict] with string keys, or any other
    value (which has no [keys] method). *)
Inductive pyobj : Type :=
| ODict (d : list (string * pyval))
| OVal (v : pyval).

Inductive exn : Type :=
| TypeError (msg : string)
| AttributeError (msg : string)
| IndexError (msg : string).

#[global] Instance atom_eq_dec : EqDecision atom.
Proof. solve_decision. Defined.
#[global] Instance pyval_eq_dec : EqDecision pyval.
Proof. solve_decision. Defined.
#[global] Instance exn_eq_dec : EqDecision exn.
Proof. solve_decision. Defined.

(** [str(x)], which is also what an f-string field [{x}] inserts. *)
Definition py_str (a : atom) : string :=
  match a with
  | ANone => "None"
  | ABool true => "True"
  | ABool false => "False"
  | AInt z => NilZero.string_of_int (Z.to_int z)
  | AStr s => s
  end.

(** [type(x).__name__], as it appears in the interpreter's error messages. *)
Definition type_name (v : pyval) : string :=
  match v with
  | PAtom ANone => "NoneType"
  | PAtom (ABool _) => "bool"
  | PAtom (AInt _) => "int"
  | PAtom (AStr _) => "str"
  | PList _ => "list"
  end.

(** Truth value of an object in a condition. *)
Definition truthy (v : pyval) : bool :=
  match v with
  | PAtom ANone => false
  | PAtom (ABool b) => b
  | PAtom (AInt z) => negb (Z.eqb z 0)
  | PAtom (AStr s) => negb (String.eqb s "")
  | PList l => match l with [] => false | _ => true end
  end.

(** Truth value of an optional list argument ([None] and [[]] are false). *)
Definition truthy_list {A} (o : option (list A)) : bool :=
  match o with
  | Some (_ :: _) => true
  | _ => false
  end.

(** ** Strings *)

Definition linesep : string := String (ascii_of_nat 10) "".

(** [s * n] *)
Fixpoint py_repeat (s : string) (n : nat) : string :=
  match n with
  | O => ""
  | S k => s +:+ py_repeat s k
  end.

(** [sep.join(l)] with [sep = ""] *)
Definition join (l : list string) : string := foldr String.append "" l.

(** [s.replace(c, r)] for a one-character pattern [c]. *)
Fixpoint replace (c : ascii) (r : string) (s : string) : string :=
  match s with
  | EmptyString => ""
  | String x rest =>
      if Ascii.eqb x c then r +:+ replace c r rest
      else String x (replace c r rest)
  end.

Definition quot : ascii := ascii_of_nat 34.
Definition apos : ascii := ascii_of_nat 39.

(** [html.escape(s)] of the Python standard library, with [quote=True]:
    five successive replacements, the ampersand first. *)
Definition escape (s : string) : string :=
  let s := replace "&"%char "&amp;" s in
  let s := replace "<"%char "&lt;" s in
  let s := replace ">"%char "&gt;" s in
  let s := replace quot "&quot;" s in
  let s := replace apos "&#x27;" s in
  s.

(** Whitespace in the sense of [str.isspace], below code point 128. *)
Definition is_space (c : ascii) : bool :=
  let n := nat_of_ascii c in
  ((9 <=? n)%nat && (n <=? 13)%nat) || ((28 <=? n)%nat && (n <=? 32)%nat).

Fixpoint lstrip (s : string) : string :=
  match s with
  | String c rest => if is_space c then lstrip rest else s
  | EmptyString => ""
  end.

Fixpoint rstrip (s : string) : string :=
  match s with
  | EmptyString => ""
  | String c rest =>
      match rstrip rest with
      | EmptyString => if is_space c then "" else String c ""
      | r => String c r
      end
  end.

(** [s.strip()] *)
Definition strip (s : string) : string := rstrip (lstrip s).

Definition upper_char (c : ascii) : ascii :=
  let n := nat_of_ascii c in
  if ((97 <=? n)%nat && (n <=? 122)%nat) then ascii_of_nat (n - 32) else c.

Definition lower_char (c : ascii) : ascii :=
  let n := nat_of_ascii c in
  if ((65 <=? n)%nat && (n <=? 90)%nat) then ascii_of_nat (n + 32) else c.

Fixpoint lower (s : string) : string :=
  match s with
  | EmptyString => ""
  | String c rest => String (lower_char c) (lower rest)
  end.

(** [s.capitalize()] *)
Definition capitalize (s : string) : string :=
  match s with
  | EmptyString => ""
  | String c rest => String (upper_char c) (lower rest)
  end.

(** ** The instance and its monad *)

Inductive level : Type := DEBUG | INFO | WARNING | ERROR.

#[global] Instance level_eq_dec : EqDecision level.
Proof. solve_decision. Defined.

(** The attributes of a [MarkdownGenerator] that its methods read or change:
    [document] lists what has been written to the open file, in order. *)
Record MarkdownGenerator : Type := mkGenerator {
  document : list string;
  document_data_array : list string;
  enable_write : bool;
  logger : list (level * string)
}.

(** How a block of statements ends: it falls through with a value, it runs
    a bare [return], or it raises. *)
Inductive outcome (A : Type) : Type :=
| Normal (a : A)
| Returned
| Raised (e : exn).
Arguments Normal {A} a.
Arguments Returned {A}.
Arguments Raised {A} e.

Definition M (A : Type) : Type := MarkdownGenerator → outcome A * MarkdownGenerator.

#[global] Instance M_ret : MRet M := λ A a self, (Normal a, self).

(** Sequencing: the rest of the block runs only when the first statement
    falls through. *)
Definition bind {A B} (m : M A) (k : A → M B) : M B := λ self,
  match m self with
  | (Normal a, self') => k a self'
  | (Returned, self') => (Returned, self')
  | (Raised e, self') => (Raised e, self')
  end.

#[global] Instance M_bind : MBind M := λ A B k m, bind m k.

Notation "'let!' x ':=' m 'in' k" := (bind m (λ x, k))
  (at level 10, x name, m at level 100, k at level 200).

Definition pass : M unit := mret ().

(** [raise e] *)
Definition raise {A} (e : exn) : M A := λ self, (Raised e, self).

(** a bare [return] inside a method body *)
Definition return_ {A} : M A := λ self, (Returned, self).

(** The boundary of a method that returns nothing: a bare [return] ends the
    call normally. *)
Definition def (body : M unit) : M unit := λ self,
  match body self with
  | (Returned, self') => (Normal (), self')
  | r => r
  end.

(** [try: body except E: handler], where [catches] tells the class [E]. *)
Definition try_except {A} (body : M A) (catches : exn → bool) (handler : exn → M A) : M A :=
  λ self,
  match body self with
  | (Raised e, self') => if catches e then handler e self' else (Raised e, self')
  | r => r
  end.

Definition is_TypeError (e : exn) : bool :=
  match e with TypeError _ => true | _ => false end.
Definition is_AttributeError (e : exn) : bool :=
  match e with AttributeError _ => true | _ => false end.
Definition is_IndexError (e : exn) : bool :=
  match e with IndexError _ => true | _ => false end.

(** [for x in l: body] *)
Fixpoint for_each {A} (l : list A) (body : A → M unit) : M unit :=
  match l with
  | [] => pass
  | x :: rest => body x ;; for_each rest body
  end.

(** [self.document_data_array.append(s)] *)
Definition data_append (s : string) : M unit := λ self,
  (Normal (),
   mkGenerator (document self) (document_data_array self ++ [s])
               (enable_write self) (logger self)).

(** [self.document.write(s)] *)
Definition document_write (s : string) : M unit := λ self,
  (Normal (),
   mkGenerator (document self ++ [s]) (document_data_array self)
               (enable_write self) (logger self)).

(** [if self.enable_write: body] *)
Definition if_enable_write (body : M unit) : M unit := λ self,
  if enable_write self then body self else (Normal (), self).

(** [self.logger.debug(msg)], [.info], [.warning], [.error] *)
Definition log (l : level) (msg : string) : M unit := λ self,
  (Normal (),
   mkGenerator (document self) (document_data_array self)
               (enable_write self) (logger self ++ [(l, msg)])).

(** ** Constants imported from [.syntax]

    The module is not part of the source file; the tokens are the ones the
    specification names. *)

(** Modelled from the spec: [MARKDOWN_HORIZONTAL_RULE], the rule marker
    (glossary: "a literal Markdown syntax token (e.g. triple-backtick, >, ---)"). *)
Definition HORIZONTAL_RULE : string := "---".
(** Modelled from the spec: [MARKDOWN_SINGLE_LINE_BLOCKQUOTE], "the blockquote marker". *)
Definition SINGLE_LINE_BLOCKQUOTE : string := ">".
(** Modelled from the spec: [MARKDOWN_MULTILINE_BLOCKQUOTE], the "blockquote-fence marker". *)
Definition MULTILINE_BLOCKQUOTE : string := ">>>".
(** Modelled from the spec: [MARKDOWN_CODE_BLOCK], the fence of a "fenced block". *)
Definition CODE_BLOCK : string := "```".
(** Modelled from the spec: [MARKDOWN_INLINE_CODE_HL], "code delimited by backticks". *)
Definition INLINE_CODE_HIGHLIGHT : string := "`".

(** ** Text emission primitives *)

Definition writeText (text : atom) (html_escape : bool) : M unit :=
  if html_escape then
    data_append (escape (py_str text)) ;;
    if_enable_write (document_write (escape (py_str text)))
  else
    data_append (py_str text) ;;
    if_enable_write (document_write (py_str text)).

Definition writeTextLine (text : atom) (html_escape : bool) : M unit :=
  match text with
  | ANone =>
      data_append ("  " +:+ linesep) ;;
      if_enable_write (document_write ("  " +:+ linesep))
  | _ =>
      if html_escape then
        data_append (escape (py_str text) +:+ "  " +:+ linesep) ;;
        if_enable_write (document_write (escape (py_str text) +:+ "  " +:+ linesep))
      else
        data_append (py_str text +:+ "  " +:+ linesep) ;;
        if_enable_write (document_write (py_str text +:+ "  " +:+ linesep))
  end.

(** ** Emphasis, links, rules, code and quotes *)

Definition addBoldedText (text : string) (write_as_line : bool) : M string :=
  let bolded := "**" +:+ strip text +:+ "**" in
  (if write_as_line then writeTextLine (AStr bolded) true else pass) ;;
  mret bolded.

Definition addItalicizedText (text : string) (write_as_line : bool) : M string :=
  let italicized := "*" +:+ strip text +:+ "*" in
  (if write_as_line then writeTextLine (AStr italicized) true else pass) ;;
  mret italicized.

Definition addBoldedAndItalicizedText (text : string) (write_as_line : bool) : M string :=
  let bolded_italicized := "***" +:+ strip text +:+ "***" in
  (if write_as_line then writeTextLine (AStr bolded_italicized) true else pass) ;;
  mret bolded_italicized.

Definition generateHrefNotation (text url title : atom) : M string :=
  if truthy (PAtom title) then
    mret ("[" +:+ py_str text +:+ "](" +:+ py_str url +:+ " "
          +:+ String quot (py_str title) +:+ String quot ")")
  else
    mret ("[" +:+ py_str text +:+ "](" +:+ py_str url +:+ ")").

Definition generateImageHrefNotation (image_uri alt_text title : atom) : M string :=
  if truthy (PAtom title) then
    mret ("![" +:+ py_str alt_text +:+ "](" +:+ py_str image_uri +:+ " "
          +:+ String quot (py_str title) +:+ String quot ")")
  else
    mret ("![" +:+ py_str alt_text +:+ "](" +:+ py_str image_uri +:+ ")").

Definition addHorizontalRule : M unit :=
  writeTextLine (AStr (linesep +:+ HORIZONTAL_RULE +:+ linesep)) true.

Definition addCodeBlock (text : string) (syntax : atom) (escape_html : bool) : M unit :=
  let grave_accent_escape := "\`" in
  let text := replace "`"%char grave_accent_escape text in
  if escape_html then
    writeTextLine
      (AStr (CODE_BLOCK +:+ py_str syntax +:+ linesep +:+ text +:+ linesep +:+ CODE_BLOCK))
      true
  else
    writeTextLine
      (AStr (CODE_BLOCK +:+ py_str syntax +:+ linesep +:+ text +:+ linesep +:+ CODE_BLOCK))
      false.

(** The result is [Some inline_hl] when the string is returned, and [None]
    when the method falls off its end. *)
Definition addInlineCodeBlock (text : atom) (escape_html write : bool) : M (option string) :=
  let inline_hl := INLINE_CODE_HIGHLIGHT +:+ py_str text +:+ INLINE_CODE_HIGHLIGHT in
  if write then
    (if escape_html then writeText (AStr inline_hl) true
     else writeText (AStr inline_hl) false) ;;
    mret None
  else
    mret (Some inline_hl).

Definition addSinglelineBlockQuote (text : string) : M unit :=
  writeTextLine (AStr (SINGLE_LINE_BLOCKQUOTE +:+ escape (strip text))) false.

Definition addMultiLineBlockQuote (text : string) : M unit :=
  writeTextLine
    (AStr (MULTILINE_BLOCKQUOTE +:+ linesep +:+ escape (strip text) +:+ linesep
           +:+ MULTILINE_BLOCKQUOTE))
    false.

(** ** Tables *)

(** What [for x in v] visits: the items of a list, the characters of a
    string; no other value here is iterable. *)
Definition items_of (v : pyval) : option (list atom) :=
  match v with
  | PList l => Some l
  | PAtom (AStr s) => Some ((λ c, AStr (String c "")) <$> String.list_ascii_of_string s)
  | _ => None
  end.

(** The length of a sized value. *)
Definition len_of (v : pyval) : option nat :=
  match v with
  | PList l => Some (length l)
  | PAtom (AStr s) => Some (String.length s)
  | _ => None
  end.

(** [for x in v]; a value that is not iterable raises [TypeError]. *)
Definition py_iter (v : pyval) : M (list atom) :=
  match items_of v with
  | Some l => mret l
  | None => raise (TypeError ("'" +:+ type_name v +:+ "' object is not iterable"))
  end.

(** [len(v)] *)
Definition py_len (v : pyval) : M nat :=
  match len_of v with
  | Some n => mret n
  | None => raise (TypeError ("object of type '" +:+ type_name v +:+ "' has no len()"))
  end.

(** [for x in o], for an argument that is a list or [None]. *)
Definition iter_arg {A} (o : option (list A)) : M (list A) :=
  match o with
  | Some l => mret l
  | None => raise (TypeError "'NoneType' object is not iterable")
  end.

(** [o[0]], for an argument that is a list or [None]. *)
Definition item0 {A} (o : option (list A)) : M A :=
  match o with
  | Some (x :: _) => mret x
  | Some [] => raise (IndexError "list index out of range")
  | None => raise (TypeError "'NoneType' object is not subscriptable")
  end.

Definition no_attribute (v : pyval) (name : string) : exn :=
  AttributeError ("'" +:+ type_name v +:+ "' object has no attribute '" +:+ name +:+ "'").

(** [header.capitalize()] *)
Definition py_capitalize (a : atom) : M string :=
  match a with
  | AStr s => mret (capitalize s)
  | _ => raise (no_attribute (PAtom a) "capitalize")
  end.

(** [row.keys()]: the keys of a [dict], in insertion order. *)
Definition keys (row : pyobj) : M (list string) :=
  match row with
  | ODict d => mret (fst <$> d)
  | OVal v => raise (no_attribute v "keys")
  end.

(** Lookup in a [dict]: the value stored under [key], if any. *)
Definition dict_lookup (d : list (string * pyval)) (key : string) : option pyval :=
  snd <$> List.find (λ kv, String.eqb (fst kv) key) d.

(** [row.get(key)]: [None] when the key is absent. *)
Definition get (row : pyobj) (key : string) : M pyval :=
  match row with
  | ODict d => mret (default (PAtom ANone) (dict_lookup d key))
  | OVal v => raise (no_attribute v "get")
  end.

Definition missing_input_msg : string :=
  "Invalid paramaters for generating new table. Use either dictionary list or row_elements.".

(** Lines 470-475: one header cell. *)
Definition addTable_header (capitalize_headers : bool) (header : atom) : M unit :=
  if capitalize_headers then
    let! s := py_capitalize header in
    writeText (AStr ("| " +:+ s +:+ " ")) true
  else
    writeText (AStr ("| " +:+ py_str header +:+ " ")) true.

(** Lines 483-495: the row of dashes that separates the headers. *)
Definition addTable_separator (alignment : string) (header_names : pyval) : M unit :=
  if String.eqb alignment "left" then
    let! n := py_len header_names in
    writeTextLine (AStr (join ["|"; py_repeat ":---|" n])) true
  else if String.eqb alignment "center" then
    let! n := py_len header_names in
    writeTextLine (AStr (join ["|"; py_repeat ":---:|" n])) true
  else if String.eqb alignment "right" then
    let! n := py_len header_names in
    writeTextLine (AStr (join ["|"; py_repeat "---:|" n])) true
  else
    log WARNING "Invalid alignment value in addTable. Using default." ;;
    let! n := py_len header_names in
    writeTextLine (AStr (join ["|"; py_repeat ":---:|" n])) true.

(** Lines 509-515 and, with [row.get(key)] for [element], lines 524-530:
    one cell of the body. *)
Definition addTable_cell (html_escape : bool) (element : pyval) : M unit :=
  match element with
  | PList items =>
      writeText (AStr "| ") true ;;
      for_each items (λ list_str,
        writeText list_str true ;;
        writeText (AStr "<br> ") false)
  | PAtom a =>
      writeText (AStr ("| " +:+ py_str a +:+ " ")) html_escape
  end.

(** Lines 501-517: the body of the loop over [row_elements]. *)
Definition addTable_row (header_names : pyval) (html_escape : bool) (row : list pyval) : M unit :=
  let! n := py_len header_names in
  if (n <? length row)%nat then
    log ERROR "The are more row elements than header names (Row:  - Header:  "
    (* continue *)
  else
    for_each row (addTable_cell html_escape) ;;
    writeTextLine (AStr "|") true.

(** Lines 523-531: the body of the loop over [dictionary_list]. *)
Definition addTable_record (html_escape : bool) (row : pyobj) : M unit :=
  let! ks := keys row in
  for_each ks (λ key,
    let! value := get row key in
    addTable_cell html_escape value) ;;
  writeTextLine (AStr "|") true.

(** Lines 433-456: which input is used. *)
Definition addTable_inputs (header_names : pyval) (row_elements : option (list (list pyval)))
    (dictionary_list : option (list pyobj)) : M (bool * bool) :=
  let! useDictionaryList :=
    match row_elements with
    | None =>
        match dictionary_list with
        | None =>
            log WARNING "Invalid paramaters for generating new table." ;;
            raise (TypeError missing_input_msg)
        | Some _ => mret true
        end
    | Some _ => mret false
    end in
  (if truthy_list row_elements && truthy_list dictionary_list then
     log DEBUG "Both row elements and dictionary list provided, using dictionary list as default."
   else pass) ;;
  if truthy header_names then
    log DEBUG "Header names provided. Using them." ;;
    mret (useDictionaryList, true)
  else
    log DEBUG "No header names provided. Using dictionary attribute names as default. Using none, if row_elements used." ;;
    mret (useDictionaryList, false).

(** Lines 459-480: the header row; the result is the value of [header_names]
    that the rest of the method uses. *)
Definition addTable_headers (header_names : pyval) (dictionary_list : option (list pyobj))
    (useProvidedHeadernames capitalize_headers : bool) : M pyval :=
  writeTextLine ANone true ;;
  let! header_names :=
    if negb useProvidedHeadernames && truthy_list dictionary_list then
      try_except
        (let! first := item0 dictionary_list in
         let! ks := keys first in
         log DEBUG "Header names are: " ;;
         mret (PList (AStr <$> ks)))
        is_AttributeError
        (λ e,
          log ERROR "Dictionary list for addTable function was not list of objects. Table not generated. : " ;;
          return_)
    else mret header_names in
  try_except
    (let! headers := py_iter header_names in
     for_each headers (addTable_header capitalize_headers))
    is_TypeError
    (λ e,
      log ERROR "Invalid header names for table. Not generated: " ;;
      return_) ;;
  writeTextLine (AStr "|") true ;;
  mret header_names.

(** Lines 497-531: the body rows, from [row_elements] unless
    [useDictionaryList] is set. *)
Definition addTable_body (useDictionaryList : bool) (header_names : pyval)
    (row_elements : option (list (list pyval))) (dictionary_list : option (list pyobj))
    (html_escape : bool) : M unit :=
  if negb useDictionaryList then
    let! rows := iter_arg row_elements in
    for_each rows (addTable_row header_names html_escape)
  else
    let! rows := iter_arg dictionary_list in
    for_each rows (addTable_record html_escape).

Definition addTable (header_names : pyval) (row_elements : option (list (list pyval)))
    (alignment : string) (dictionary_list : option (list pyobj))
    (html_escape capitalize_headers : bool) : M unit :=
  def (
    let! flags := addTable_inputs header_names row_elements dictionary_list in
    let useDictionaryList := fst flags in
    let useProvidedHeadernames := snd flags in
    let! header_names :=
      addTable_headers header_names dictionary_list useProvidedHeadernames capitalize_headers in
    addTable_separator alignment header_names ;;
    addTable_body useDictionaryList header_names row_elements dictionary_list html_escape ;;
    writeTextLine ANone true).

(** ** The public methods as one type of calls *)

Inductive call : Type :=
| WriteText (text : atom) (html_escape : bool)
| WriteTextLine (text : atom) (html_escape : bool)
| AddBoldedText (text : string) (write_as_line : bool)
| AddItalicizedText (text : string) (write_as_line : bool)
| AddBoldedAndItalicizedText (text : string) (write_as_line : bool)
| GenerateHrefNotation (text url title : atom)
| GenerateImageHrefNotation (image_uri alt_text title : atom)
| AddHorizontalRule
| AddCodeBlock (text : string) (syntax : atom) (escape_html : bool)
| AddInlineCodeBlock (text : atom) (escape_html write : bool)
| AddSinglelineBlockQuote (text : string)
| AddMultiLineBlockQuote (text : string)
| AddTable (header_names : pyval) (row_elements : option (list (list pyval)))
    (alignment : string) (dictionary_list : option (list pyobj))
    (html_escape capitalize_headers : bool).

(** What the caller sees of a call besides its value: the exception that
    came out of it, if any, and the instance afterwards. *)
Definition observe {A} (m : M A) (self : MarkdownGenerator) : option exn * MarkdownGenerator :=
  match m self with
  | (Raised e, self') => (Some e, self')
  | (_, self') => (None, self')
  end.

Definition invoke (c : call) : MarkdownGenerator → option exn * MarkdownGenerator :=
  match c with
  | WriteText text html_escape => observe (writeText text html_escape)
  | WriteTextLine text html_escape => observe (writeTextLine text html_escape)
  | AddBoldedText text write_as_line => observe (addBoldedText text write_as_line)
  | AddItalicizedText text write_as_line => observe (addItalicizedText text write_as_line)
  | AddBoldedAndItalicizedText text write_as_line =>
      observe (addBoldedAndItalicizedText text write_as_line)
  | GenerateHrefNotation text url title => observe (generateHrefNotation text url title)
  | GenerateImageHrefNotation image_uri alt_text title =>
      observe (generateImageHrefNotation image_uri alt_text title)
  | AddHorizontalRule => observe addHorizontalRule
  | AddCodeBlock text syntax escape_html => observe (addCodeBlock text syntax escape_html)
  | AddInlineCodeBlock text escape_html write =>
      observe (addInlineCodeBlock text escape_html write)
  | AddSinglelineBlockQuote text => observe (addSinglelineBlockQuote text)
  | AddMultiLineBlockQuote text => observe (addMultiLineBlockQuote text)
  | AddTable header_names row_elements alignment dictionary_list html_escape
      capitalize_headers =>
      observe (addTable header_names row_elements alignment dictionary_list html_escape
                 capitalize_headers)
  end.

(** A sequence of calls on one instance; an exception ends one call, and the
    caller goes on with the next. *)
Definition invoke_all (cs : list call) (self : MarkdownGenerator) : MarkdownGenerator :=
  foldl (λ s c, (invoke c s).2) self cs.

(** ** Vocabulary of the statements *)

(** The instance after [frs] went through [writeText]/[writeTextLine] and
    [logs] through the logger. *)
Definition emit (frs : list string) (logs : list (level * string))
    (self : MarkdownGenerator) : MarkdownGenerator :=
  mkGenerator
    (document self ++ (if enable_write self then frs else []))
    (document_data_array self ++ frs)
    (enable_write self)
    (logger self ++ logs).

(** [m] ends with [r] and its whole effect is to emit [frs] and [logs],
    whatever the instance it starts from. *)
Definition emits {A} (m : M A) (r : outcome A) (frs : list string)
    (logs : list (level * string)) : Prop :=
  ∀ self, m self = (r, emit frs logs self).

(** [m] only emits, raises only exceptions in [E], and logs only at levels
    in [L]. *)
Definition effects {A} (E : exn → Prop) (L : level → Prop) (m : M A) : Prop :=
  ∃ r frs logs,
    emits m r frs logs ∧ (∀ e, r = Raised e → E e) ∧ Forall (λ x, L x.1) logs.

(** The exceptions other than the one that reports missing table input. *)
Definition not_missing (e : exn) : Prop := e ≠ TypeError missing_input_msg.

(** Number of records of level [l] in a log. *)
Definition count_level (l : level) (logs : list (level * string)) : nat :=
  length (filter (λ x, x.1 = l) logs).

(** The fragment that [writeText] appends. *)
Definition text_fragment (text : atom) (html_escape : bool) : string :=
  if html_escape then escape (py_str text) else py_str text.

(** The fragment that [writeTextLine] appends. *)
Definition line_fragment (text : atom) (html_escape : bool) : string :=
  match text with
  | ANone => "  " +:+ linesep
  | _ => text_fragment text html_escape +:+ "  " +:+ linesep
  end.

(** The fragments of one body cell. *)
Definition cell_fragments (html_escape : bool) (element : pyval) : list string :=
  match element with
  | PList items => "| " :: flat_map (λ it, [escape (py_str it); "<br> "]) items
  | PAtom a =>
      [if html_escape then escape ("| " +:+ py_str a +:+ " ") else "| " +:+ py_str a +:+ " "]
  end.

(** The fragments of one body row, with its closing bar. *)
Definition row_fragments (html_escape : bool) (row : list pyval) : list string :=
  flat_map (cell_fragments html_escape) row ++ ["|  " +:+ linesep].

(** The values of a [dict], in the order of its keys. *)
Definition record_values (d : list (string * pyval)) : list pyval :=
  (λ key, default (PAtom ANone) (dict_lookup d key)) <$> (fst <$> d).

Definition fits (n : nat) (row : list pyval) : bool := (length row <=? n)%nat.

Definition too_long_msg : level * string :=
  (ERROR, "The are more row elements than header names (Row:  - Header:  ").

Definition alignment_msg : level * string :=
  (WARNING, "Invalid alignment value in addTable. Using default.").

(** The text of a document: its fragments, concatenated. *)
Definition text_of (frs : list string) : string := join frs.

(** ** Footnote bookkeeping across instances

    [__init__] takes [footnote_index] and [pending_footnote_references] from
    its caller so that nested instances share them by reference ("We are
    using dict, so we can pass it by reference among objects").  The shared
    objects live in a store; an instance holds their locations. *)

Module Footnotes.

Inductive object : Type :=
| Dict (d : gmap string Z)
| Notes (l : list (Z * string)).

Abbreviation store := (gmap nat object).

(** The two attributes of the instance that concern footnotes. *)
Record instance : Type := mkInstance {
  footnote_index : nat;
  pending_footnote_references : nat
}.

(** Truth value of an optional argument that refers to a stored object:
    [None], an empty [dict] and an empty list are false. *)
Definition truthy_ref (σ : store) (arg : option nat) : bool :=
  match arg with
  | None => false
  | Some l =>
      match σ !! l with
      | Some (Dict d) => negb (bool_decide (d = ∅))
      | Some (Notes n) => match n with [] => false | _ => true end
      | None => false
      end
  end.

(** A new object at a location that is not in use. *)
Definition alloc (o : object) (σ : store) : nat * store :=
  let l := fresh (dom σ) in (l, <[l := o]> σ).

(** Lines 115-121 of [__init__]. *)
Definition init (pending_footnote_references footnote_index : option nat)
    (σ : store) : instance * store :=
  let '(fi, σ) :=
    if truthy_ref σ footnote_index then (default 0%nat footnote_index, σ)
    else alloc (Dict {["value" := 0%Z]}) σ in
  let '(pr, σ) :=
    if truthy_ref σ pending_footnote_references
    then (default 0%nat pending_footnote_references, σ)
    else alloc (Notes []) σ in
  (mkInstance fi pr, σ).

(** Modelled from the spec: the method that creates a footnote reference is
    not in the source file.  "A shared counter [footnote_index] is
    incremented each time a footnote reference is created", and
    [pending_footnote_references] "accumulates entries in emission order",
    each entry recording [(index, reference_text)].  The result is the
    index of the new reference, or [None] when a lookup fails. *)
Definition addFootnote (self : instance) (reference_text : string) (σ : store)
    : option (Z * store) :=
  match σ !! footnote_index self with
  | Some (Dict d) =>
      match d !! "value" with
      | Some v =>
          let index := (v + 1)%Z in
          let σ := <[footnote_index self := Dict (<["value" := index]> d)]> σ in
          match σ !! pending_footnote_references self with
          | Some (Notes l) =>
              Some (index,
                    <[pending_footnote_references self :=
                        Notes (l ++ [(index, reference_text)])]> σ)
          | _ => None
          end
      | None => None
      end
  | _ => None
  end.

(** What a program does with instances: create a root, create an instance
    nested in another one (passing on the parent's two attributes), or
    create a footnote reference through an instance. *)
Inductive command : Type :=
| New
| Nested (parent : nat)
| Footnote (via : nat) (reference_text : string).

(** [issued] lists, oldest first, the counter and the index of every
    footnote reference created so far. *)
Record config : Type := mkConfig {
  objects : store;
  instances : list instance;
  issued : list (nat * Z)
}.

Definition step (c : config) (cmd : command) : config :=
  match cmd with
  | New =>
      let '(b, σ) := init None None (objects c) in
      mkConfig σ (instances c ++ [b]) (issued c)
  | Nested parent =>
      match instances c !! parent with
      | Some p =>
          let '(b, σ) :=
            init (Some (pending_footnote_references p)) (Some (footnote_index p))
                 (objects c) in
          mkConfig σ (instances c ++ [b]) (issued c)
      | None => c
      end
  | Footnote via reference_text =>
      match instances c !! via with
      | Some b =>
          match addFootnote b reference_text (objects c) with
          | Some (index, σ) =>
              mkConfig σ (instances c) (issued c ++ [(footnote_index b, index)])
          | None => c
          end
      | None => c
      end
  end.

Definition start : config := mkConfig ∅ [] [].

Definition run (cmds : list command) : config := foldl step start cmds.

(** The indices issued from counter [k], oldest first. *)
Definition indices_of (k : nat) (tr : list (nat * Z)) : list Z :=
  snd <$> filter (λ x, x.1 = k) tr.

(** An instance whose two attributes refer to a counter and to a list. *)
Definition well_formed (σ : store) (b : instance) : Prop :=
  ∃ d v l,
    σ !! footnote_index b = Some (Dict d) ∧ d !! "value" = Some v
    ∧ σ !! pending_footnote_references b = Some (Notes l).

(** What holds of every configuration that [run] reaches: the instances
    are well formed, no index issued from a counter exceeds the counter's
    value, nothing was issued from a location that is not in use, and the
    indices issued from one counter increase. *)
Record invariant (c : config) : Prop := mkInvariant {
  inv_instances : ∀ b, b ∈ instances c → well_formed (objects c) b;
  inv_bound : ∀ k d v,
    objects c !! k = Some (Dict d) → d !! "value" = Some v →
    Forall (λ i, (i ≤ v)%Z) (indices_of k (issued c));
  inv_unused : ∀ k, objects c !! k = None → indices_of k (issued c) = [];
  inv_sorted : ∀ k, StronglySorted Z.lt (indices_of k (issued c))
}.

End Footnotes.

(** ** Leaving the [with] block *)

(** [__exit__], lines 169-171: unless everything was written on the way, the
    buffer is written to the file ([writelines]) before the file is closed.
    The result is the contents of the file as it is closed. *)
Definition __exit__ (self : MarkdownGenerator) : list string :=
  if negb (enable_write self) then document self ++ document_data_array self
  else document self.

(** ** More vocabulary *)

Definition is_str (a : atom) : bool :=
  match a with AStr _ => true | _ => false end.

(** The text of a header cell: [header.capitalize()] or [header]. *)
Definition header_text (capitalize_headers : bool) (header : atom) : string :=
  match header with
  | AStr s => if capitalize_headers then capitalize s else s
  | _ => py_str header
  end.

(** The fragments of the header cells. *)
Definition header_fragments (capitalize_headers : bool) (headers : list atom)
    : list string :=
  (λ header, escape ("| " +:+ header_text capitalize_headers header +:+ " ")) <$> headers.

(** The row of dashes for [n] columns. *)
Definition separator_fragment (alignment : string) (n : nat) : string :=
  escape ("|" +:+ py_repeat
                    (if String.eqb alignment "left" then ":---|"
                     else if String.eqb alignment "center" then ":---:|"
                     else if String.eqb alignment "right" then "---:|"
                     else ":---:|") n)
  +:+ "  " +:+ linesep.

(** What [addTable_separator] logs. *)
Definition separator_logs (alignment : string) : list (level * string) :=
  if String.eqb alignment "left" then []
  else if String.eqb alignment "center" then []
  else if String.eqb alignment "right" then []
  else [alignment_msg].

(** Whether the character [c] occurs in [s]. *)
Fixpoint occurs (c : ascii) (s : string) : bool :=
  match s with
  | EmptyString => false
  | String x rest => Ascii.eqb x c || occurs c rest
  end.

(** An instance that has written nothing yet and buffers its output. *)
Definition new_generator : MarkdownGenerator := mkGenerator [] [] false [].

(** Integer and string cells. *)
Definition int (z : Z) : pyval := PAtom (AInt z).
Definition str (s : string) : pyval := PAtom (AStr s).

(** * Properties *)

(** ** Effects of the monad's combinators *)

Create HintDb effects.

Lemma emit_emit f1 l1 f2 l2 self :
  emit f2 l2 (emit f1 l1 self) = emit (f1 ++ f2) (l1 ++ l2) self.
Proof.
  unfold emit; simpl.
  destruct (enable_write self); f_equal; rewrite <- ?app_assoc, ?app_nil_r; done.
Qed.

Lemma emit_nil self : emit [] [] self = self.
Proof.
  destruct self as [d b w l]; unfold emit; simpl.
  destruct w; by rewrite !app_nil_r.
Qed.




Lemma emits_ret {A} (a : A) : emits (mret a) (Normal a) [] [].
Proof. intros self. by rewrite emit_nil. Qed.

Lemma emits_raise {A} e : emits (@raise A e) (Raised e) [] [].
Proof. intros self. by rewrite emit_nil. Qed.

Lemma emits_return {A} : emits (@return_ A) Returned [] [].
Proof. intros self. by rewrite emit_nil. Qed.

Lemma emits_log l msg : emits (log l msg) (Normal ()) [] [(l, msg)].
Proof.
  intros self. unfold log, emit.
  destruct (enable_write self); by rewrite !app_nil_r.
Qed.

Lemma emits_bind {A B} (m : M A) (k : A → M B) a f1 l1 r f2 l2 :
  emits m (Normal a) f1 l1 → emits (k a) r f2 l2 →
  emits (bind m k) r (f1 ++ f2) (l1 ++ l2).
Proof.
  intros Hm Hk self. unfold bind. by rewrite Hm, Hk, emit_emit.
Qed.

Lemma emits_bind_returned {A B} (m : M A) (k : A → M B) f l :
  emits m Returned f l → emits (bind m k) Returned f l.
Proof. intros Hm self. unfold bind. by rewrite Hm. Qed.

Lemma emits_bind_raised {A B} (m : M A) (k : A → M B) e f l :
  emits m (Raised e) f l → emits (bind m k) (Raised e) f l.
Proof. intros Hm self. unfold bind. by rewrite Hm. Qed.

Lemma emits_seq {A B} (m : M A) (k : M B) a f1 l1 r f2 l2 :
  emits m (Normal a) f1 l1 → emits k r f2 l2 →
  emits (m ;; k) r (f1 ++ f2) (l1 ++ l2).
Proof. intros Hm Hk. by apply (emits_bind m (λ _, k) a). Qed.

Lemma emits_writeText text html_escape :
  emits (writeText text html_escape) (Normal ()) [text_fragment text html_escape] [].
Proof.
  intros self. unfold writeText, text_fragment, emit.
  destruct html_escape; unfold mbind, M_bind, bind, data_append, if_enable_write; simpl;
    destruct (enable_write self); simpl; by rewrite ?app_nil_r.
Qed.

Lemma emits_writeTextLine text html_escape :
  emits (writeTextLine text html_escape) (Normal ()) [line_fragment text html_escape] [].
Proof.
  intros self. unfold writeTextLine, line_fragment, text_fragment, emit.
  destruct text, html_escape;
    unfold mbind, M_bind, bind, data_append, if_enable_write; simpl;
    destruct (enable_write self); simpl; by rewrite ?app_nil_r.
Qed.

Lemma emits_for_each {A} (body : A → M unit) (frs : A → list string) (l : list A) :
  (∀ x, emits (body x) (Normal ()) (frs x) []) →
  emits (for_each l body) (Normal ()) (flat_map frs l) [].
Proof.
  intros Hbody. induction l as [|x l IH]; simpl.
  - apply emits_ret.
  - change [] with (@nil (level * string) ++ []).
    eapply emits_seq; [apply Hbody | apply IH].
Qed.

Lemma emits_eq {A} (m : M A) r f l f' l' :
  emits m r f l → f = f' → l = l' → emits m r f' l'.
Proof. by intros H <- <-. Qed.

Lemma emits_try_caught {A} (body : M A) catches handler e f1 l1 r f2 l2 :
  emits body (Raised e) f1 l1 → catches e = true → emits (handler e) r f2 l2 →
  emits (try_except body catches handler) r (f1 ++ f2) (l1 ++ l2).
Proof.
  intros Hb Hc Hh self. unfold try_except. by rewrite Hb, Hc, Hh, emit_emit.
Qed.


Lemma emits_def_returned (body : M unit) f l :
  emits body Returned f l → emits (def body) (Normal ()) f l.
Proof. intros Hb self. unfold def. by rewrite Hb. Qed.



Lemma effects_intro {A} (E : exn → Prop) (L : level → Prop) (m : M A) r frs logs :
  emits m r frs logs → (∀ e, r = Raised e → E e) → Forall (λ x, L x.1) logs →
  effects E L m.
Proof. intros. by exists r, frs, logs. Qed.

Lemma effects_weaken {A} (E E' : exn → Prop) (L L' : level → Prop) (m : M A) :
  effects E L m → (∀ e, E e → E' e) → (∀ l, L l → L' l) → effects E' L' m.
Proof.
  intros (r & frs & logs & Hm & HE & HL) HE' HL'.
  exists r, frs, logs. split_and!; [done | by auto |].
  eapply Forall_impl; [exact HL | by auto].
Qed.

Lemma effects_ret {A} E L (a : A) : effects E L (mret a).
Proof. eapply effects_intro; [apply emits_ret | done | done]. Qed.

Lemma effects_pass E L : effects E L pass.
Proof. apply effects_ret. Qed.

Lemma effects_return {A} E L : effects E L (@return_ A).
Proof. eapply effects_intro; [apply emits_return | done | done]. Qed.

Lemma effects_raise {A} (E : exn → Prop) L e : E e → effects E L (@raise A e).
Proof.
  intros He. eapply effects_intro; [apply emits_raise | | done].
  by intros e' [= <-].
Qed.

Lemma effects_log (E : exn → Prop) (L : level → Prop) l msg : L l → effects E L (log l msg).
Proof.
  intros Hl. eapply effects_intro; [apply emits_log | done |].
  by constructor.
Qed.

Lemma effects_writeText E L text html_escape : effects E L (writeText text html_escape).
Proof. eapply effects_intro; [apply emits_writeText | done | done]. Qed.

Lemma effects_writeTextLine E L text html_escape :
  effects E L (writeTextLine text html_escape).
Proof. eapply effects_intro; [apply emits_writeTextLine | done | done]. Qed.

Lemma effects_bind {A B} E L (m : M A) (k : A → M B) :
  effects E L m → (∀ a, effects E L (k a)) → effects E L (bind m k).
Proof.
  intros (r & f1 & l1 & Hm & HE & HL) Hk. destruct r as [a| |e].
  - destruct (Hk a) as (r & f2 & l2 & Hka & HE2 & HL2).
    exists r, (f1 ++ f2), (l1 ++ l2). split_and!.
    + by eapply emits_bind.
    + done.
    + by apply Forall_app.
  - exists Returned, f1, l1. split_and!; [by apply emits_bind_returned | done | done].
  - exists (Raised e), f1, l1. split_and!; [by apply emits_bind_raised | | done].
    intros e' [= <-]. by apply HE.
Qed.

Lemma effects_seq {A B} E L (m : M A) (k : M B) :
  effects E L m → effects E L k → effects E L (m ;; k).
Proof. intros Hm Hk. by apply (effects_bind E L m (λ _, k)). Qed.

Lemma effects_for_each {A} E L (body : A → M unit) (l : list A) :
  (∀ x, effects E L (body x)) → effects E L (for_each l body).
Proof.
  intros Hbody. induction l as [|x l IH]; simpl.
  - apply effects_ret.
  - by apply effects_seq.
Qed.

Lemma effects_try_except {A} (E E' : exn → Prop) L (body : M A) catches handler :
  effects E' L body →
  (∀ e, E' e → catches e = true → effects E L (handler e)) →
  (∀ e, E' e → catches e = false → E e) →
  effects E L (try_except body catches handler).
Proof.
  intros (r & f1 & l1 & Hm & HE & HL) Hcatch Hpass. destruct r as [a| |e].
  - exists (Normal a), f1, l1. split_and!; [|done..].
    intros self. unfold try_except. by rewrite Hm.
  - exists Returned, f1, l1. split_and!; [|done..].
    intros self. unfold try_except. by rewrite Hm.
  - destruct (catches e) eqn:Hc.
    + destruct (Hcatch e) as (r & f2 & l2 & Hh & HE2 & HL2); [by apply HE | done |].
      exists r, (f1 ++ f2), (l1 ++ l2). split_and!; [| done | by apply Forall_app].
      intros self. unfold try_except. by rewrite Hm, Hc, Hh, emit_emit.
    + exists (Raised e), f1, l1. split_and!; [| | done].
      * intros self. unfold try_except. by rewrite Hm, Hc.
      * intros e' [= <-]. apply Hpass; [by apply HE | done].
Qed.

Lemma effects_def E L (body : M unit) : effects E L body → effects E L (def body).
Proof.
  intros (r & f1 & l1 & Hm & HE & HL). destruct r as [a| |e].
  - exists (Normal a), f1, l1. split_and!; [|done..].
    intros self. unfold def. by rewrite Hm.
  - exists (Normal ()), f1, l1. split_and!; [|done..].
    intros self. unfold def. by rewrite Hm.
  - exists (Raised e), f1, l1. split_and!; [|done..].
    intros self. unfold def. by rewrite Hm.
Qed.

#[global] Hint Resolve effects_ret effects_pass effects_return effects_writeText
  effects_writeTextLine effects_def : effects.

(** One step of the analysis of a method body. *)
Ltac effects_step :=
  match goal with
  | |- effects _ _ (bind _ _) => apply effects_bind; [|intros ?]
  | |- effects _ _ (_ ;; _) => apply effects_seq
  | |- effects _ _ (for_each _ _) => apply effects_for_each; intros ?
  | |- effects _ _ (def _) => apply effects_def
  | |- effects _ _ (log _ _) => apply effects_log
  | |- effects _ _ (raise _) => apply effects_raise
  | |- effects _ _ (if ?b then _ else _) => destruct b
  | |- effects _ _ (match ?x with _ => _ end) => destruct x
  | |- effects _ _ _ => solve [auto with effects]
  end.

(** What a caller can rely on after any computation that only emits. *)
Lemma effects_run {A} E L (m : M A) self :
  effects E L m →
  ∃ r frs logs,
    m self = (r, emit frs logs self) ∧ (∀ e, r = Raised e → E e)
    ∧ Forall (λ x, L x.1) logs.
Proof. intros (r & frs & logs & Hm & HE & HL). by exists r, frs, logs. Qed.

Lemma count_level_app l logs1 logs2 :
  count_level l (logs1 ++ logs2) = (count_level l logs1 + count_level l logs2)%nat.
Proof. unfold count_level. by rewrite filter_app, length_app. Qed.

Lemma count_level_none l logs :
  Forall (λ x, x.1 ≠ l) logs → count_level l logs = 0%nat.
Proof.
  unfold count_level. induction 1 as [|x logs Hx _ IH]; [done|].
  by rewrite filter_cons_False.
Qed.

(** ** Effects of the methods *)

Lemma effects_py_len (E : exn → Prop) L v :
  (∀ msg, E (TypeError ("object of type '" +:+ msg))) → effects E L (py_len v).
Proof.
  intros HE. unfold py_len. destruct (len_of v); [apply effects_ret|].
  by apply effects_raise.
Qed.

Lemma effects_addTable_cell E L html_escape element :
  effects E L (addTable_cell html_escape element).
Proof. unfold addTable_cell. repeat effects_step. Qed.

Ltac solve_not_missing :=
  unfold not_missing, no_attribute, missing_input_msg; simpl; discriminate.

Lemma effects_addTable_header L capitalize_headers header :
  effects not_missing L (addTable_header capitalize_headers header).
Proof.
  unfold addTable_header, py_capitalize.
  repeat effects_step; solve_not_missing.
Qed.

Lemma effects_keys L row : effects not_missing L (keys row).
Proof. unfold keys. repeat effects_step. solve_not_missing. Qed.

Lemma effects_get L row key : effects not_missing L (get row key).
Proof. unfold get. repeat effects_step. solve_not_missing. Qed.

Lemma effects_item0 {A} L (o : option (list A)) : effects not_missing L (item0 o).
Proof. unfold item0. repeat effects_step; solve_not_missing. Qed.

Lemma effects_iter_arg {A} L (o : option (list A)) : effects not_missing L (iter_arg o).
Proof. unfold iter_arg. repeat effects_step. solve_not_missing. Qed.

Lemma effects_py_iter L v : effects not_missing L (py_iter v).
Proof. unfold py_iter. repeat effects_step. solve_not_missing. Qed.

Lemma effects_py_len_table L v : effects not_missing L (py_len v).
Proof. apply effects_py_len. intros msg. solve_not_missing. Qed.

#[global] Hint Resolve effects_addTable_cell effects_addTable_header effects_keys
  effects_get effects_item0 effects_iter_arg effects_py_iter effects_py_len_table
  : effects.

Lemma effects_addTable_headers (L : level → Prop) header_names dictionary_list
    useProvidedHeadernames capitalize_headers :
  L DEBUG → L ERROR →
  effects not_missing L
    (addTable_headers header_names dictionary_list useProvidedHeadernames
       capitalize_headers).
Proof.
  intros HD HE. unfold addTable_headers.
  apply effects_seq; [auto with effects|].
  apply effects_bind.
  - destruct (negb useProvidedHeadernames && truthy_list dictionary_list);
      [|auto with effects].
    apply effects_try_except with (E' := not_missing).
    + repeat effects_step; done.
    + intros e _ _. repeat effects_step; done.
    + done.
  - intros hn. apply effects_seq.
    + apply effects_try_except with (E' := not_missing).
      * repeat effects_step.
      * intros e _ _. repeat effects_step; done.
      * done.
    + repeat effects_step.
Qed.

Lemma effects_addTable_separator (L : level → Prop) alignment header_names :
  L WARNING → effects not_missing L (addTable_separator alignment header_names).
Proof. intros HW. unfold addTable_separator. repeat effects_step; done. Qed.

Lemma effects_addTable_row (L : level → Prop) header_names html_escape row :
  L ERROR → effects not_missing L (addTable_row header_names html_escape row).
Proof. intros HE. unfold addTable_row. repeat effects_step; done. Qed.

Lemma effects_addTable_record L html_escape row :
  effects not_missing L (addTable_record html_escape row).
Proof. unfold addTable_record. repeat effects_step. Qed.

Lemma effects_addTable_body (L : level → Prop) useDictionaryList header_names
    row_elements dictionary_list html_escape :
  L ERROR →
  effects not_missing L
    (addTable_body useDictionaryList header_names row_elements dictionary_list
       html_escape).
Proof.
  intros HE. unfold addTable_body.
  destruct (negb useDictionaryList); repeat effects_step.
  - by apply effects_addTable_row.
  - apply effects_addTable_record.
Qed.

Lemma effects_addTable_inputs header_names row_elements dictionary_list :
  effects
    (λ e, e = TypeError missing_input_msg → row_elements = None ∧ dictionary_list = None)
    (λ _, True)
    (addTable_inputs header_names row_elements dictionary_list).
Proof.
  unfold addTable_inputs.
  destruct row_elements as [rows|], dictionary_list as [dl|];
    repeat effects_step; done.
Qed.

Lemma effects_addTable header_names row_elements alignment dictionary_list html_escape
    capitalize_headers :
  effects
    (λ e, e = TypeError missing_input_msg → row_elements = None ∧ dictionary_list = None)
    (λ _, True)
    (addTable header_names row_elements alignment dictionary_list html_escape
       capitalize_headers).
Proof.
  unfold addTable. apply effects_def. apply effects_bind.
  - apply effects_addTable_inputs.
  - intros flags.
    apply effects_weaken with (E := not_missing) (L := λ _, True);
      [| by intros e He Heq | done].
    apply effects_bind; [by apply effects_addTable_headers|].
    intros hn. apply effects_seq; [by apply effects_addTable_separator|].
    apply effects_seq; [by apply effects_addTable_body | auto with effects].
Qed.

(** ** Body cells and rows *)

Lemma emits_addTable_cell html_escape element :
  emits (addTable_cell html_escape element) (Normal ())
        (cell_fragments html_escape element) [].
Proof.
  destruct element as [a|items]; simpl.
  - apply emits_writeText.
  - change (@nil (level * string)) with (@nil (level * string) ++ []).
    change ("| " :: ?l) with (["| "] ++ l).
    eapply emits_seq; [apply (emits_writeText (AStr "| ") true)|].
    apply emits_for_each. intros it.
    change (@nil (level * string)) with (@nil (level * string) ++ []).
    change [escape (py_str it); "<br> "] with ([escape (py_str it)] ++ ["<br> "]).
    eapply emits_seq;
      [apply (emits_writeText it true) | apply (emits_writeText (AStr "<br> ") false)].
Qed.

Lemma emits_py_len v n : len_of v = Some n → emits (py_len v) (Normal n) [] [].
Proof. intros Hn. unfold py_len. rewrite Hn. apply emits_ret. Qed.

Lemma emits_addTable_row_fits header_names n html_escape row :
  len_of header_names = Some n → (length row ≤ n)%nat →
  emits (addTable_row header_names html_escape row) (Normal ())
        (row_fragments html_escape row) [].
Proof.
  intros Hn Hfit. unfold addTable_row.
  change (row_fragments html_escape row) with ([] ++ row_fragments html_escape row).
  change (@nil (level * string)) with (@nil (level * string) ++ []).
  eapply emits_bind; [by apply emits_py_len|].
  destruct (Nat.ltb_spec n (length row)) as [Hlt|_]; [lia|].
  unfold row_fragments.
  change (@nil (level * string)) with (@nil (level * string) ++ []).
  eapply emits_seq.
  - apply emits_for_each. intros x. apply emits_addTable_cell.
  - apply (emits_writeTextLine (AStr "|") true).
Qed.

Lemma emits_addTable_row_too_long header_names n html_escape row :
  len_of header_names = Some n → (n < length row)%nat →
  emits (addTable_row header_names html_escape row) (Normal ()) [] [too_long_msg].
Proof.
  intros Hn Hlong. unfold addTable_row.
  change (@nil string) with (@nil string ++ []).
  change [too_long_msg] with ([] ++ [too_long_msg]).
  eapply emits_bind; [by apply emits_py_len|].
  destruct (Nat.ltb_spec n (length row)) as [_|Hle]; [|lia].
  apply emits_log.
Qed.

(** The loop over [row_elements]: the rows that fit are written in order, and
    each of the others leaves one error record and nothing else. *)
Lemma emits_addTable_rows header_names n html_escape rows :
  len_of header_names = Some n →
  emits (for_each rows (addTable_row header_names html_escape)) (Normal ())
        (flat_map (row_fragments html_escape) (filter (λ row, (length row ≤ n)%nat) rows))
        (repeat too_long_msg (length (filter (λ row, (n < length row)%nat) rows))).
Proof.
  intros Hn. induction rows as [|row rows IH]; simpl.
  - apply emits_ret.
  - destruct (decide (length row ≤ n)%nat) as [Hfit|Hlong].
    + rewrite filter_cons_True by done.
      rewrite (filter_cons_False (λ row, (n < length row)%nat)) by lia.
      simpl.
      change (repeat ?x ?k) with ([] ++ repeat x k).
      eapply emits_seq; [by eapply emits_addTable_row_fits | exact IH].
    + rewrite filter_cons_False by done.
      rewrite (filter_cons_True (λ row, (n < length row)%nat)) by lia.
      simpl.
      change (too_long_msg :: ?l) with ([too_long_msg] ++ l).
      change (flat_map ?f ?l) with ([] ++ flat_map f l).
      eapply emits_seq; [eapply emits_addTable_row_too_long; [done | lia] | exact IH].
Qed.

Lemma emits_addTable_record html_escape d :
  emits (addTable_record html_escape (ODict d)) (Normal ())
        (row_fragments html_escape (record_values d)) [].
Proof.
  unfold addTable_record, row_fragments, record_values; simpl.
  change (@nil (level * string)) with (@nil (level * string) ++ []).
  rewrite <- (app_nil_l (flat_map _ _ ++ _)).
  eapply emits_bind; [apply emits_ret|].
  change (@nil (level * string)) with (@nil (level * string) ++ []).
  eapply emits_seq; [|apply (emits_writeTextLine (AStr "|") true)].
  generalize (fst <$> d). intros ks.
  induction ks as [|key ks IH]; simpl.
  - apply emits_ret.
  - change (@nil (level * string)) with (@nil (level * string) ++ []).
    eapply emits_seq; [|exact IH].
    change (@nil (level * string)) with (@nil (level * string) ++ []).
    rewrite <- (app_nil_l (cell_fragments _ _)).
    eapply emits_bind; [apply emits_ret | apply emits_addTable_cell].
Qed.

(** The loop over [dictionary_list] when its elements are dictionaries. *)
Lemma emits_addTable_records html_escape (ds : list (list (string * pyval))) :
  emits (for_each (ODict <$> ds) (addTable_record html_escape)) (Normal ())
        (flat_map (λ d, row_fragments html_escape (record_values d)) ds) [].
Proof.
  induction ds as [|d ds IH]; simpl.
  - apply emits_ret.
  - change (@nil (level * string)) with (@nil (level * string) ++ []).
    eapply emits_seq; [apply emits_addTable_record | exact IH].
Qed.

Lemma append_empty_r (s : string) : s +:+ "" = s.
Proof.
  induction s as [|c s IH]; [done|].
  change (String c (s +:+ "") = String c s). by rewrite IH.
Qed.


(** ** Rows that are too long *)



(** ** List-valued cells *)

(** C6: in either table mode a cell whose value is a list is one cell: one
    opening bar, then every item followed by the line-break tag "<br> ", which
    is written with [html_escape=False] and so is never escaped.  The list
    ["a","b"] gives the cell text "| a<br> b<br> ".  The loop over
    [row_elements] and the loop over [dictionary_list] both write, for each
    element of a row, the fragments of that one cell. *)
Theorem addTable_list_cell html_escape items :
  emits (addTable_cell html_escape (PList items)) (Normal ())
        ("| " :: flat_map (λ it, [escape (py_str it); "<br> "]) items) []
  ∧ text_of (cell_fragments html_escape (PList [AStr "a"; AStr "b"])) = "| a<br> b<br> "
  ∧ escape "<br> " ≠ "<br> "
  ∧ cell_fragments html_escape (PList items)
    = "| " :: flat_map (λ it, [escape (py_str it); "<br> "]) items
  ∧ (∀ hs rows,
       emits (for_each rows (addTable_row (PList hs) html_escape)) (Normal ())
         (flat_map (row_fragments html_escape)
            (filter (λ row, (length row ≤ length hs)%nat) rows))
         (repeat too_long_msg
            (length (filter (λ row, (length hs < length row)%nat) rows))))
  ∧ (∀ ds,
       emits (for_each (ODict <$> ds) (addTable_record html_escape)) (Normal ())
         (flat_map (λ d, row_fragments html_escape (record_values d)) ds) [])
  ∧ (addTable (PList [AStr "h"]) (Some [[PList [AStr "a"; AStr "b"]]]) "center" None
       html_escape false new_generator).2.(document_data_array)
    = ["  " +:+ linesep; "| h "; "|  " +:+ linesep; "|:---:|  " +:+ linesep;
       "| "; "a"; "<br> "; "b"; "<br> "; "|  " +:+ linesep; "  " +:+ linesep]
  ∧ (addTable (PAtom ANone) None "center" (Some [ODict [("h", PList [AStr "a"; AStr "b"])]])
       html_escape false new_generator).2.(document_data_array)
    = ["  " +:+ linesep; "| h "; "|  " +:+ linesep; "|:---:|  " +:+ linesep;
       "| "; "a"; "<br> "; "b"; "<br> "; "|  " +:+ linesep; "  " +:+ linesep].
Proof.
  split_and!.
  - apply (emits_addTable_cell html_escape (PList items)).
  - reflexivity.
  - discriminate.
  - reflexivity.
  - intros hs rows. by apply emits_addTable_rows.
  - apply emits_addTable_records.
  - by destruct html_escape.
  - by destruct html_escape.
Qed.

(** C10: the items of a list-valued cell go through [writeText] with its
    default [html_escape=True], so they are escaped whatever the caller's
    flag is, while a scalar cell is escaped only when the flag is true; this
    is so in the loop over [row_elements] and in the loop over
    [dictionary_list]. *)
Theorem addTable_list_items_always_escaped items a :
  (∀ html_escape,
     emits (addTable_cell html_escape (PList items)) (Normal ())
           ("| " :: flat_map (λ it, [escape (py_str it); "<br> "]) items) [])
  ∧ emits (addTable_cell true (PAtom a)) (Normal ())
          [escape ("| " +:+ py_str a +:+ " ")] []
  ∧ emits (addTable_cell false (PAtom a)) (Normal ()) ["| " +:+ py_str a +:+ " "] []
  ∧ (∀ html_escape hs rows,
       emits (for_each rows (addTable_row (PList hs) html_escape)) (Normal ())
         (flat_map (λ row, flat_map (cell_fragments html_escape) row ++ ["|  " +:+ linesep])
            (filter (λ row, (length row ≤ length hs)%nat) rows))
         (repeat too_long_msg
            (length (filter (λ row, (length hs < length row)%nat) rows))))
  ∧ (∀ html_escape ds,
       emits (for_each (ODict <$> ds) (addTable_record html_escape)) (Normal ())
         (flat_map (λ d, flat_map (cell_fragments html_escape) (record_values d)
                         ++ ["|  " +:+ linesep]) ds) [])
  ∧ (addTable (PList [AStr "u"; AStr "v"]) (Some [[PList [AStr "<b>"]; str "<b>"]])
       "center" None false false new_generator).2.(document_data_array)
    = ["  " +:+ linesep; "| u "; "| v "; "|  " +:+ linesep;
       "|:---:|:---:|  " +:+ linesep;
       "| "; "&lt;b&gt;"; "<br> "; "| <b> "; "|  " +:+ linesep; "  " +:+ linesep]
  ∧ (addTable (PAtom ANone) None "center"
       (Some [ODict [("u", PList [AStr "<b>"]); ("v", str "<b>")]])
       false false new_generator).2.(document_data_array)
    = ["  " +:+ linesep; "| u "; "| v "; "|  " +:+ linesep;
       "|:---:|:---:|  " +:+ linesep;
       "| "; "&lt;b&gt;"; "<br> "; "| <b> "; "|  " +:+ linesep; "  " +:+ linesep].
Proof.
  split_and!.
  - intros html_escape. apply (emits_addTable_cell html_escape (PList items)).
  - apply (emits_addTable_cell true (PAtom a)).
  - apply (emits_addTable_cell false (PAtom a)).
  - intros html_escape hs rows.
    by apply (emits_addTable_rows (PList hs) (length hs) html_escape rows).
  - intros html_escape ds. apply emits_addTable_records.
  - reflexivity.
  - reflexivity.
Qed.

(** ** Both inputs given *)

(** C1, evaluated on the source: with [row_elements=[[1,2]]] and
    [dictionary_list=[{"a":3,"b":4}]] the header row comes from the keys of the
    dictionary, but the body row is the one of [row_elements]; and the records
    after the first one never matter when [row_elements] is given. *)
Theorem addTable_both_inputs_render_rows :
  addTable (PAtom ANone) (Some [[int 1; int 2]]) "center"
    (Some [ODict [("a", int 3); ("b", int 4)]]) true false new_generator
  = (Normal (),
     mkGenerator []
       ["  " +:+ linesep; "| a "; "| b "; "|  " +:+ linesep;
        "|:---:|:---:|  " +:+ linesep;
        "| 1 "; "| 2 "; "|  " +:+ linesep;
        "  " +:+ linesep]
       false
       [(DEBUG, "Both row elements and dictionary list provided, using dictionary list as default.");
        (DEBUG, "No header names provided. Using dictionary attribute names as default. Using none, if row_elements used.");
        (DEBUG, "Header names are: ")])
  ∧ ∀ header_names rows alignment d dl html_escape capitalize_headers self,
      addTable header_names (Some rows) alignment (Some (d :: dl)) html_escape
        capitalize_headers self
      = addTable header_names (Some rows) alignment (Some [d]) html_escape
          capitalize_headers self.
Proof.
  split; [reflexivity|].
  intros.
  unfold addTable, addTable_inputs, addTable_body, def, mbind, M_bind, bind, mret,
    M_ret, log.
  destruct rows, (truthy header_names); reflexivity.
Qed.

(** ** Missing table input *)

(** C2: a call to [addTable] with neither [row_elements] nor
    [dictionary_list] raises the [TypeError] that reports the missing input
    (after one warning record) and writes nothing; with any other combination
    of the two arguments this error does not come out of the call. *)
Theorem addTable_missing_input header_names row_elements alignment dictionary_list
    html_escape capitalize_headers self :
  addTable header_names None alignment None html_escape capitalize_headers self
  = (Raised (TypeError missing_input_msg),
     mkGenerator (document self) (document_data_array self) (enable_write self)
       (logger self ++ [(WARNING, "Invalid paramaters for generating new table.")]))
  ∧ ((addTable header_names row_elements alignment dictionary_list html_escape
        capitalize_headers self).1 = Raised (TypeError missing_input_msg)
     ↔ row_elements = None ∧ dictionary_list = None).
Proof.
  split; [reflexivity|]. split.
  - intros Hraised.
    destruct (effects_run _ _ _ self
                (effects_addTable header_names row_elements alignment dictionary_list
                   html_escape capitalize_headers))
      as (r & frs & logs & Hrun & HE & _).
    rewrite Hrun in Hraised. simpl in Hraised. by apply (HE _ Hraised).
  - by intros [-> ->].
Qed.

(** ** Header names that cannot be iterated *)

(** Lines 433-456 when some table input is given: debug records only. *)
Lemma emits_addTable_inputs header_names row_elements dictionary_list :
  ¬ (row_elements = None ∧ dictionary_list = None) →
  ∃ logs,
    Forall (λ x, x.1 = DEBUG) logs
    ∧ emits (addTable_inputs header_names row_elements dictionary_list)
            (Normal (bool_decide (row_elements = None), truthy header_names)) [] logs.
Proof.
  intros Hgiven. unfold addTable_inputs.
  assert (∃ u : bool,
            emits (match row_elements with
                   | None =>
                       match dictionary_list with
                       | None =>
                           log WARNING "Invalid paramaters for generating new table." ;;
                           raise (TypeError missing_input_msg)
                       | Some _ => mret true
                       end
                   | Some _ => mret false
                   end) (Normal u) [] []
            ∧ u = bool_decide (row_elements = None)) as (u & Hu & ->).
  { destruct row_elements as [rows|]; [|destruct dictionary_list as [dl|]].
    - exists false. split; [apply emits_ret | done].
    - exists true. split; [apply emits_ret | done].
    - by destruct Hgiven. }
  destruct (truthy_list row_elements && truthy_list dictionary_list),
    (truthy header_names);
    eexists; (split; [|eapply emits_eq;
      [eapply emits_bind; [exact Hu|]; eapply emits_seq;
         [first [apply emits_log | apply emits_ret]|];
         eapply emits_seq; [apply emits_log | apply emits_ret]
      | reflexivity | reflexivity]]);
    simpl; by repeat constructor.
Qed.

(** Lines 459-478 when the header names cannot be iterated. *)
Lemma emits_addTable_headers_bad header_names dictionary_list useProvidedHeadernames
    capitalize_headers :
  items_of header_names = None →
  useProvidedHeadernames = true ∨ truthy_list dictionary_list = false →
  emits (addTable_headers header_names dictionary_list useProvidedHeadernames
           capitalize_headers)
        Returned ["  " +:+ linesep]
        [(ERROR, "Invalid header names for table. Not generated: ")].
Proof.
  intros Hiter Hkeep. unfold addTable_headers.
  assert (negb useProvidedHeadernames && truthy_list dictionary_list = false) as ->.
  { destruct Hkeep as [-> | ->]; [done | by destruct useProvidedHeadernames]. }
  eapply emits_eq;
    [eapply emits_seq; [apply (emits_writeTextLine ANone true)|];
     eapply emits_bind; [apply emits_ret|];
     apply emits_bind_returned;
     eapply emits_try_caught;
       [apply emits_bind_raised; unfold py_iter; rewrite Hiter; apply emits_raise
       | reflexivity
       | eapply emits_seq; [apply emits_log | apply emits_return]]
    | reflexivity | reflexivity].
Qed.

(** Header names that are an integer: the call logs an error and returns;
    no exception comes out of it. *)
Lemma addTable_bad_headers_not_raised :
  items_of (PAtom (AInt 5)) = None
  ∧ addTable (PAtom (AInt 5)) (Some [[int 1; int 2]]) "center" None true false
      new_generator
    = (Normal (),
       mkGenerator [] ["  " +:+ linesep] false
         [(DEBUG, "Header names provided. Using them.");
          (ERROR, "Invalid header names for table. Not generated: ")])
  ∧ ¬ ∃ e, (addTable (PAtom (AInt 5)) (Some [[int 1; int 2]]) "center" None true false
              new_generator).1 = Raised e.
Proof. split_and!; [reflexivity | reflexivity |]. by intros [e He]. Qed.

(** C3, as the source has it: when the header names that [addTable] is to
    write cannot be iterated (and are not replaced by the keys of the first
    dictionary), the [TypeError] is caught inside the method: one error
    record is logged after the debug records, the call returns normally, and
    the blank line written before the header row stays in the buffer. *)
Theorem addTable_bad_headers_logged header_names row_elements alignment dictionary_list
    html_escape capitalize_headers self :
  items_of header_names = None →
  truthy header_names = true ∨ truthy_list dictionary_list = false →
  ¬ (row_elements = None ∧ dictionary_list = None) →
  ∃ logs,
    Forall (λ x, x.1 = DEBUG) logs
    ∧ addTable header_names row_elements alignment dictionary_list html_escape
        capitalize_headers self
      = (Normal (),
         emit ["  " +:+ linesep]
           (logs ++ [(ERROR, "Invalid header names for table. Not generated: ")])
           self).
Proof.
  intros Hiter Hkeep Hgiven.
  destruct (emits_addTable_inputs header_names row_elements dictionary_list Hgiven)
    as (logs & Hlogs & Hin).
  exists logs. split; [done|]. revert self.
  change (emits
            (addTable header_names row_elements alignment dictionary_list html_escape
               capitalize_headers)
            (Normal ()) ["  " +:+ linesep]
            (logs ++ [(ERROR, "Invalid header names for table. Not generated: ")])).
  unfold addTable. apply emits_def_returned.
  eapply emits_eq; [eapply emits_bind; [exact Hin|] | reflexivity | reflexivity].
  apply emits_bind_returned. simpl.
  by apply emits_addTable_headers_bad.
Qed.

Lemma addTable_bad_headers_logged_witness :
  items_of (PAtom (AInt 5)) = None
  ∧ ∃ logs,
      Forall (λ x, x.1 = DEBUG) logs
      ∧ addTable (PAtom (AInt 5)) (Some [[int 1; int 2]]) "center" None true false
          new_generator
        = (Normal (),
           emit ["  " +:+ linesep]
             (logs ++ [(ERROR, "Invalid header names for table. Not generated: ")])
             new_generator).
Proof.
  split; [reflexivity|].
  apply (addTable_bad_headers_logged (PAtom (AInt 5)) (Some [[int 1; int 2]]) "center"
           None true false new_generator).
  - reflexivity.
  - left. reflexivity.
  - intros [H _]. discriminate H.
Defined.

(** ** Inline code *)

(** C7, evaluated on the source: [addInlineCodeBlock] puts the text between
    two backticks and returns it, but a backtick inside the text is left as it
    is; [addCodeBlock] is the method that puts a backslash before each. *)
Theorem addInlineCodeBlock_backtick_unescaped :
  addInlineCodeBlock (AStr "a`b") false false new_generator
  = (Normal (Some "`a`b`"), new_generator)
  ∧ (addInlineCodeBlock (AStr "a`b") false false new_generator).1
    ≠ Normal (Some ("`" +:+ replace "`"%char "\`" "a`b" +:+ "`"))
  ∧ (addCodeBlock "a`b" (AStr "") false new_generator).2.(document_data_array)
    = ["```" +:+ linesep +:+ "a\`b" +:+ linesep +:+ "```  " +:+ linesep].
Proof. split_and!; [reflexivity | discriminate | reflexivity]. Qed.

(** What [addInlineCodeBlock] does for every text: with [write] false the
    delimited string is returned and nothing is written, with [write] true it
    goes through [writeText] (escaped when [escape_html] is true) and the
    method returns nothing. *)
Lemma addInlineCodeBlock_delimits text escape_html self :
  addInlineCodeBlock text escape_html false self
  = (Normal (Some ("`" +:+ py_str text +:+ "`")), self)
  ∧ addInlineCodeBlock text escape_html true self
    = (Normal None,
       emit [text_fragment (AStr ("`" +:+ py_str text +:+ "`")) escape_html] [] self).
Proof.
  split; [reflexivity|]. revert self.
  change (emits (addInlineCodeBlock text escape_html true) (Normal None)
            [text_fragment (AStr ("`" +:+ py_str text +:+ "`")) escape_html] []).
  unfold addInlineCodeBlock.
  destruct escape_html;
    (eapply emits_eq;
       [eapply emits_seq; [apply emits_writeText | apply emits_ret]
       | reflexivity | reflexivity]).
Qed.

(** ** The buffer only grows *)

Lemma effects_any {A} (m : M A) E L :
  effects E L m → effects (λ _, True) (λ _, True) m.
Proof. intros H. by eapply effects_weaken. Qed.

Lemma observe_prefix {A} (m : M A) self :
  effects (λ _, True) (λ _, True) m →
  document_data_array self `prefix_of` document_data_array (observe m self).2
  ∧ document self `prefix_of` document (observe m self).2
  ∧ enable_write (observe m self).2 = enable_write self.
Proof.
  intros (r & frs & logs & Hm & _). unfold observe. rewrite Hm.
  assert (∀ o : option exn, (o, emit frs logs self).2 = emit frs logs self) as Hsnd by done.
  destruct r; rewrite Hsnd; unfold emit; simpl;
    (split_and!; [by apply prefix_app_r | by apply prefix_app_r | done]).
Qed.

Lemma effects_invoke (c : call) :
  ∃ A (m : M A), invoke c = observe m ∧ effects (λ _, True) (λ _, True) m.
Proof.
  destruct c; eexists _, _; (split; [reflexivity|]).
  - auto with effects.
  - auto with effects.
  - unfold addBoldedText. repeat effects_step.
  - unfold addItalicizedText. repeat effects_step.
  - unfold addBoldedAndItalicizedText. repeat effects_step.
  - unfold generateHrefNotation. repeat effects_step.
  - unfold generateImageHrefNotation. repeat effects_step.
  - unfold addHorizontalRule. auto with effects.
  - unfold addCodeBlock. repeat effects_step.
  - unfold addInlineCodeBlock. repeat effects_step.
  - unfold addSinglelineBlockQuote. auto with effects.
  - unfold addMultiLineBlockQuote. auto with effects.
  - eapply effects_any. apply effects_addTable.
Qed.

(** C9: every method changes [document_data_array] only by appending to it.
    After any call, and after any sequence of calls, the contents from before
    are a prefix of the contents afterwards; this includes a call that stops
    after a logged error (header names that cannot be iterated) and a call
    that raises after it has begun to write (a header that is not a string,
    with [capitalize_headers]): what was written before stays. *)
Theorem buffer_only_grows :
  (∀ c self,
     document_data_array self `prefix_of` document_data_array (invoke c self).2)
  ∧ (∀ cs self,
       document_data_array self `prefix_of` document_data_array (invoke_all cs self))
  ∧ (∀ self,
       (invoke (AddTable (PAtom (AInt 5)) (Some [[int 1; int 2]]) "center" None true false)
          self).1 = None
       ∧ document_data_array
           (invoke (AddTable (PAtom (AInt 5)) (Some [[int 1; int 2]]) "center" None true
                      false) self).2
         = document_data_array self ++ ["  " +:+ linesep])
  ∧ (∀ self,
       (invoke (AddTable (PList [AInt 1]) (Some []) "center" None true true) self).1
       = Some (no_attribute (PAtom (AInt 1)) "capitalize")
       ∧ document_data_array
           (invoke (AddTable (PList [AInt 1]) (Some []) "center" None true true) self).2
         = document_data_array self ++ ["  " +:+ linesep]).
Proof.
  assert (∀ c self,
            document_data_array self `prefix_of` document_data_array (invoke c self).2)
    as Hone.
  { intros c self. destruct (effects_invoke c) as (A & m & -> & Hm).
    by apply observe_prefix. }
  split_and!.
  - exact Hone.
  - intros cs. unfold invoke_all.
    induction cs as [|c cs IH]; intros self; simpl; [done|].
    etrans; [apply (Hone c) | apply IH].
  - intros self. by destruct self as [doc data [] lg].
  - intros self. by destruct self as [doc data [] lg].
Qed.

(** ** Alignment *)










(** ** Footnote indices *)

Module FootnoteProofs.
Import Footnotes.

Lemma indices_of_app k tr1 tr2 :
  indices_of k (tr1 ++ tr2) = indices_of k tr1 ++ indices_of k tr2.
Proof. unfold indices_of. by rewrite filter_app, fmap_app. Qed.

Lemma indices_of_one_eq k i : indices_of k [(k, i)] = [i].
Proof. unfold indices_of. by rewrite filter_cons_True. Qed.

Lemma indices_of_one_ne k k' i : k' ≠ k → indices_of k [(k', i)] = [].
Proof. intros Hne. unfold indices_of. by rewrite filter_cons_False. Qed.

Lemma sorted_snoc (l : list Z) (i : Z) :
  StronglySorted Z.lt l → Forall (λ j, (j < i)%Z) l → StronglySorted Z.lt (l ++ [i]).
Proof.
  intros Hl Hi. apply StronglySorted_app. split_and!.
  - intros x y Hx Hy. apply list_elem_of_singleton in Hy as ->.
    by eapply Forall_forall in Hi.
  - done.
  - repeat constructor.
Qed.

Lemma sorted_NoDup (l : list Z) : StronglySorted Z.lt l → NoDup l.
Proof.
  induction 1 as [|x l _ IH Hx]; constructor; [|done].
  intros Hin. eapply Forall_forall in Hx; [|exact Hin]. lia.
Qed.

Lemma well_formed_insert_fresh σ l o b :
  σ !! l = None → well_formed σ b → well_formed (<[l := o]> σ) b.
Proof.
  intros Hl (d & v & n & Hd & Hv & Hn). exists d, v, n.
  split_and!; [|done|]; rewrite lookup_insert_ne; congruence.
Qed.

(** A new object at a fresh location, and possibly a new instance, keep
    the invariant as long as a new counter starts at a value that bounds
    nothing (no index was issued from a fresh location). *)
Lemma invariant_alloc c l o bs :
  invariant c → objects c !! l = None →
  (∀ b, b ∈ bs → well_formed (<[l := o]> (objects c)) b) →
  invariant (mkConfig (<[l := o]> (objects c)) (instances c ++ bs) (issued c)).
Proof.
  intros [Hi Hb Hu Hs] Hl Hbs. constructor; simpl.
  - intros b [Hin|Hin]%elem_of_app; [|by apply Hbs].
    apply well_formed_insert_fresh; [done | by apply Hi].
  - intros k d v Hk Hv. destruct (decide (l = k)) as [<-|Hne].
    + by rewrite (Hu l Hl).
    + rewrite lookup_insert_ne in Hk by done. by eapply Hb.
  - intros k Hk. apply Hu. destruct (decide (l = k)) as [<-|Hne]; [done|].
    by rewrite lookup_insert_ne in Hk.
  - exact Hs.
Qed.

Lemma invariant_add_instance c b :
  invariant c → well_formed (objects c) b →
  invariant (mkConfig (objects c) (instances c ++ [b]) (issued c)).
Proof.
  intros [Hi Hb Hu Hs] Hwf. constructor; simpl; [|done..].
  intros b' [Hin|Hin%list_elem_of_singleton]%elem_of_app; [by apply Hi | by subst].
Qed.

Lemma truthy_counter σ l d v :
  σ !! l = Some (Dict d) → d !! "value" = Some v → truthy_ref σ (Some l) = true.
Proof.
  intros Hl Hv. unfold truthy_ref. rewrite Hl.
  apply negb_true_iff, bool_decide_eq_false. intros ->.
  by rewrite lookup_empty in Hv.
Qed.

(** [__init__] without shared arguments makes a counter of its own. *)
Lemma init_new c :
  invariant c →
  ∃ b σ, init None None (objects c) = (b, σ)
         ∧ invariant (mkConfig σ (instances c ++ [b]) (issued c)).
Proof.
  intros Hinv. unfold init, alloc. simpl.
  set (l1 := fresh (dom (objects c))).
  set (σ1 := <[l1 := Dict {["value" := 0%Z]}]> (objects c)).
  set (l2 := fresh (dom σ1)).
  assert (objects c !! l1 = None) as Hl1 by apply not_elem_of_dom, is_fresh.
  assert (σ1 !! l2 = None) as Hl2 by apply not_elem_of_dom, is_fresh.
  eexists _, _. split; [done|].
  assert (l2 ≠ l1) as Hne.
  { intros Heq. rewrite Heq in Hl2. unfold σ1 in Hl2.
    by rewrite lookup_insert_eq in Hl2. }
  pose proof (invariant_alloc c l1 (Dict {["value" := 0%Z]}) [] Hinv Hl1) as Hinv1.
  rewrite app_nil_r in Hinv1. specialize (Hinv1 ltac:(by intros b ?%elem_of_nil)).
  pose proof (invariant_alloc _ l2 (Notes []) [mkInstance l1 l2] Hinv1 Hl2) as Hinv2.
  simpl in Hinv2. apply Hinv2.
  intros b ->%list_elem_of_singleton. exists {["value" := 0%Z]}, 0%Z, []. simpl.
  split_and!.
  - rewrite lookup_insert_ne by done. by rewrite lookup_insert_eq.
  - done.
  - by rewrite lookup_insert_eq.
Qed.

(** [__init__] with the parent's attributes shares the parent's counter. *)
Lemma init_nested c p :
  invariant c → p ∈ instances c →
  ∃ b σ, init (Some (pending_footnote_references p)) (Some (footnote_index p))
           (objects c) = (b, σ)
         ∧ footnote_index b = footnote_index p
         ∧ invariant (mkConfig σ (instances c ++ [b]) (issued c)).
Proof.
  intros Hinv Hp.
  destruct (inv_instances c Hinv p Hp) as (d & v & n & Hd & Hv & Hn).
  unfold init. rewrite (truthy_counter _ _ _ _ Hd Hv).
  cbv beta iota zeta delta [default].
  destruct (truthy_ref (objects c) (Some (pending_footnote_references p))) eqn:Ht.
  - eexists _, _. split_and!; [done..|].
    apply invariant_add_instance; [done|]. by exists d, v, n.
  - unfold alloc. set (l2 := fresh (dom (objects c))).
    assert (objects c !! l2 = None) as Hl2 by apply not_elem_of_dom, is_fresh.
    eexists _, _. split_and!; [done..|].
    apply (invariant_alloc c l2 (Notes []) [_] Hinv Hl2).
    intros b ->%list_elem_of_singleton. exists d, v, []. simpl. split_and!.
    + rewrite lookup_insert_ne; [done | congruence].
    + done.
    + by rewrite lookup_insert_eq.
Qed.

(** Creating a footnote reference through a well-formed instance succeeds,
    and its index is above everything issued from the same counter. *)
Lemma addFootnote_issues c b text :
  invariant c → b ∈ instances c →
  ∃ i σ, addFootnote b text (objects c) = Some (i, σ)
         ∧ Forall (λ j, (j < i)%Z) (indices_of (footnote_index b) (issued c))
         ∧ invariant (mkConfig σ (instances c) (issued c ++ [(footnote_index b, i)])).
Proof.
  intros Hinv Hb.
  destruct (inv_instances c Hinv b Hb) as (d & v & n & Hd & Hv & Hn).
  assert (footnote_index b ≠ pending_footnote_references b) as Hne
    by (intros Heq; rewrite Heq in Hd; congruence).
  unfold addFootnote. rewrite Hd, Hv. rewrite lookup_insert_ne by done. rewrite Hn.
  eexists _, _. split; [done|].
  pose proof (inv_bound c Hinv _ _ _ Hd Hv) as Hbound.
  assert (Forall (λ j, (j < v + 1)%Z) (indices_of (footnote_index b) (issued c)))
    as Hlt by (eapply Forall_impl; [exact Hbound | simpl; intros; lia]).
  split; [done|].
  destruct Hinv as [Hi Hbd Hu Hs]. constructor; simpl.
  - intros b' Hb'. destruct (Hi b' Hb') as (d' & v' & n' & Hd' & Hv' & Hn').
    assert (pending_footnote_references b ≠ footnote_index b') as Hne1 by congruence.
    assert (footnote_index b ≠ pending_footnote_references b') as Hne2 by congruence.
    exists (if decide (footnote_index b' = footnote_index b)
            then <["value" := (v + 1)%Z]> d else d'),
           (if decide (footnote_index b' = footnote_index b) then (v + 1)%Z else v'),
           (if decide (pending_footnote_references b' = pending_footnote_references b)
            then n ++ [((v + 1)%Z, text)] else n').
    split_and!.
    + rewrite lookup_insert_ne by done. case_decide as Hfi.
      * rewrite Hfi. apply lookup_insert_eq.
      * rewrite lookup_insert_ne by congruence. done.
    + case_decide; [apply lookup_insert_eq | done].
    + case_decide as Hpr.
      * rewrite Hpr. apply lookup_insert_eq.
      * rewrite !lookup_insert_ne by congruence. done.
  - intros k d' v' Hk Hv'. rewrite indices_of_app.
    destruct (decide (k = pending_footnote_references b)) as [->|Hkp];
      [by rewrite lookup_insert_eq in Hk|].
    rewrite lookup_insert_ne in Hk by done.
    destruct (decide (k = footnote_index b)) as [->|Hkf].
    + rewrite lookup_insert_eq in Hk. injection Hk as <-.
      rewrite lookup_insert_eq in Hv'. injection Hv' as <-.
      rewrite indices_of_one_eq. apply Forall_app. split; [|by repeat constructor].
      eapply Forall_impl; [exact Hlt | simpl; intros; lia].
    + rewrite lookup_insert_ne in Hk by done.
      rewrite indices_of_one_ne, app_nil_r by done. by eapply Hbd.
  - intros k Hk. rewrite indices_of_app.
    destruct (decide (k = pending_footnote_references b)) as [->|Hkp];
      [by rewrite lookup_insert_eq in Hk|].
    rewrite lookup_insert_ne in Hk by done.
    destruct (decide (k = footnote_index b)) as [->|Hkf];
      [by rewrite lookup_insert_eq in Hk|].
    rewrite lookup_insert_ne in Hk by done.
    rewrite indices_of_one_ne, app_nil_r by done. by apply Hu.
  - intros k. rewrite indices_of_app.
    destruct (decide (k = footnote_index b)) as [->|Hkf].
    + rewrite indices_of_one_eq. by apply sorted_snoc.
    + rewrite indices_of_one_ne, app_nil_r by done. apply Hs.
Qed.

Lemma invariant_start : invariant start.
Proof.
  constructor; simpl; try done.
  - by intros b ?%elem_of_nil.
  - intros k. constructor.
Qed.

Lemma invariant_step c cmd : invariant c → invariant (step c cmd).
Proof.
  intros Hinv. destruct cmd as [|parent|via text]; cbn [step].
  - destruct (init_new c Hinv) as (b & σ & -> & Hinv'). done.
  - destruct (instances c !! parent) as [p|] eqn:Hp; [|done].
    apply list_elem_of_lookup_2 in Hp.
    destruct (init_nested c p Hinv Hp) as (b & σ & -> & _ & Hinv'). done.
  - destruct (instances c !! via) as [b|] eqn:Hb; [|done].
    apply list_elem_of_lookup_2 in Hb.
    destruct (addFootnote_issues c b text Hinv Hb) as (i & σ & -> & _ & Hinv'). done.
Qed.

Lemma invariant_run cmds : invariant (run cmds).
Proof.
  unfold run. induction cmds as [|cmd cmds IH] using rev_ind.
  - apply invariant_start.
  - rewrite foldl_snoc. by apply invariant_step.
Qed.

(** C8: in any program that creates instances, nests them and creates
    footnote references, every reference created through an instance
    receives an index strictly greater than every index issued before from
    the same counter; a nested instance has the counter of its parent; so
    the indices issued from one counter are strictly increasing and without
    repetition, however many instances share it. *)
Theorem footnote_indices_increasing cmds :
  (∀ k, StronglySorted Z.lt (indices_of k (issued (run cmds)))
        ∧ NoDup (indices_of k (issued (run cmds))))
  ∧ (∀ via b text,
       instances (run cmds) !! via = Some b →
       ∃ i, issued (step (run cmds) (Footnote via text))
            = issued (run cmds) ++ [(footnote_index b, i)]
            ∧ Forall (λ j, (j < i)%Z)
                (indices_of (footnote_index b) (issued (run cmds))))
  ∧ (∀ parent p,
       instances (run cmds) !! parent = Some p →
       ∃ b, instances (step (run cmds) (Nested parent)) = instances (run cmds) ++ [b]
            ∧ footnote_index b = footnote_index p).
Proof.
  pose proof (invariant_run cmds) as Hinv. split_and!.
  - intros k. split; [apply Hinv | apply sorted_NoDup, Hinv].
  - intros via b text Hb. cbn [step]. rewrite Hb.
    apply list_elem_of_lookup_2 in Hb.
    destruct (addFootnote_issues _ b text Hinv Hb) as (i & σ & -> & Hlt & _).
    by exists i.
  - intros parent p Hp. cbn [step]. rewrite Hp.
    apply list_elem_of_lookup_2 in Hp.
    destruct (init_nested _ p Hinv Hp) as (b & σ & -> & Hfi & _).
    by exists b.
Qed.

Lemma footnote_indices_increasing_witness :
  instances (run [New; Nested 0]) !! 1%nat = Some (mkInstance 0 2)
  ∧ ∃ i, issued (step (run [New; Nested 0]) (Footnote 1 "n"))
         = issued (run [New; Nested 0]) ++ [(0%nat, i)].
Proof.
  split; [vm_compute; reflexivity|].
  destruct (footnote_indices_increasing [New; Nested 0]) as (_ & H & _).
  destruct (H 1%nat (mkInstance 0 2) "n") as (i & Hi & _); [vm_compute; reflexivity|].
  exists i. exact Hi.
Defined.

End FootnoteProofs.

(** * Further properties of the methods *)

(** ** What a call does to the instance *)

Lemma observe_emits {A} (m : M A) r frs logs :
  emits m r frs logs →
  ∀ self,
    observe m self
    = (match r with Raised e => Some e | _ => None end, emit frs logs self).
Proof. intros Hm self. unfold observe. rewrite Hm. by destruct r. Qed.

(** X1: what a call raises, the fragments it writes and the records it logs
    do not depend on the instance it is called on (nothing that was written
    or logged before is read back), and its whole effect is to append: the
    fragments to the buffer, the same fragments to the file exactly when
    [enable_write] is set, the records to the log; [enable_write] itself is
    never changed. *)
Theorem call_effect c :
  ∃ o frs logs, ∀ self,
    (invoke c self).1 = o
    ∧ document_data_array (invoke c self).2 = document_data_array self ++ frs
    ∧ document (invoke c self).2
      = document self ++ (if enable_write self then frs else [])
    ∧ logger (invoke c self).2 = logger self ++ logs
    ∧ enable_write (invoke c self).2 = enable_write self.
Proof.
  destruct (effects_invoke c) as (A & m & -> & r & frs & logs & Hm & _).
  exists (match r with Raised e => Some e | _ => None end), frs, logs.
  intros self. by rewrite (observe_emits m r frs logs Hm).
Qed.

Lemma invoke_all_emits cs :
  ∃ frs logs, ∀ self, invoke_all cs self = emit frs logs self.
Proof.
  unfold invoke_all. induction cs as [|c cs IH] using rev_ind.
  - exists [], []. intros self. by rewrite emit_nil.
  - destruct IH as (f1 & l1 & IH).
    destruct (effects_invoke c) as (A & m & Hc & r & f2 & l2 & Hm & _).
    exists (f1 ++ f2), (l1 ++ l2). intros self.
    rewrite foldl_snoc, IH, Hc, (observe_emits m r f2 l2 Hm). simpl.
    apply emit_emit.
Qed.

(** X2: with [enable_write] set, the file follows the buffer: if the file
    holds what the buffer holds before a sequence of calls, it does so after
    the sequence, whatever the calls are and however they end. *)
Theorem file_follows_buffer cs self :
  enable_write self = true →
  document self = document_data_array self →
  document (invoke_all cs self) = document_data_array (invoke_all cs self).
Proof.
  intros Hw Hsync. destruct (invoke_all_emits cs) as (frs & logs & ->).
  unfold emit; simpl. by rewrite Hw, Hsync.
Qed.

Lemma file_follows_buffer_witness :
  enable_write (mkGenerator [] [] true []) = true
  ∧ document (invoke_all [AddHorizontalRule; WriteText (AStr "a<b") true]
                (mkGenerator [] [] true []))
    = document_data_array
        (invoke_all [AddHorizontalRule; WriteText (AStr "a<b") true]
           (mkGenerator [] [] true [])).
Proof.
  split; [reflexivity|].
  apply (file_follows_buffer [AddHorizontalRule; WriteText (AStr "a<b") true]
           (mkGenerator [] [] true [])); reflexivity.
Defined.

(** X3: for an instance that starts with an empty buffer and an empty file,
    the file that [__exit__] closes holds exactly the fragments of the
    buffer, in order, and it is the same file whether the calls were written
    at once ([enable_write]) or only buffered. *)
Theorem exit_writes_buffer cs self :
  document self = [] →
  document_data_array self = [] →
  __exit__ (invoke_all cs self) = document_data_array (invoke_all cs self)
  ∧ ∀ w,
      __exit__ (invoke_all cs (mkGenerator [] [] w (logger self)))
      = __exit__ (invoke_all cs self).
Proof.
  intros Hdoc Hdata. destruct (invoke_all_emits cs) as (frs & logs & Hrun).
  rewrite !Hrun. split.
  - unfold __exit__, emit; simpl. rewrite Hdoc, Hdata.
    by destruct (enable_write self).
  - intros w. rewrite Hrun. unfold __exit__, emit; simpl. rewrite Hdoc, Hdata.
    by destruct w, (enable_write self).
Qed.

Lemma exit_writes_buffer_witness :
  document new_generator = []
  ∧ __exit__ (invoke_all [AddHorizontalRule; WriteText (AStr "a<b") true] new_generator)
    = document_data_array
        (invoke_all [AddHorizontalRule; WriteText (AStr "a<b") true] new_generator).
Proof.
  split; [reflexivity|].
  apply (exit_writes_buffer [AddHorizontalRule; WriteText (AStr "a<b") true]
           new_generator); reflexivity.
Defined.

(** ** Whole tables *)

Lemma length_list_ascii_of_string s :
  length (String.list_ascii_of_string s) = String.length s.
Proof. induction s as [|c s IH]; simpl; [done | by rewrite IH]. Qed.

Lemma len_of_items header_names headers :
  items_of header_names = Some headers → len_of header_names = Some (length headers).
Proof.
  destruct header_names as [[| | |s]|l]; simpl; intros [= <-]; [|done].
  by rewrite length_fmap, length_list_ascii_of_string.
Qed.

Lemma emits_for_each_Forall {A} (body : A → M unit) (frs : A → string) (l : list A) :
  Forall (λ x, emits (body x) (Normal ()) [frs x] []) l →
  emits (for_each l body) (Normal ()) (frs <$> l) [].
Proof.
  induction 1 as [|x l Hx _ IH]; simpl.
  - apply emits_ret.
  - eapply emits_eq; [eapply emits_seq; [exact Hx | exact IH] | done | done].
Qed.

Lemma emits_addTable_header capitalize_headers header :
  capitalize_headers = false ∨ is_str header = true →
  emits (addTable_header capitalize_headers header) (Normal ())
        [escape ("| " +:+ header_text capitalize_headers header +:+ " ")] [].
Proof.
  intros Hok. unfold addTable_header.
  destruct capitalize_headers.
  - destruct Hok as [|Hstr]; [done|]. destruct header as [| | |s]; try done. simpl.
    eapply emits_eq;
      [eapply emits_bind;
         [apply emits_ret
         | apply (emits_writeText (AStr ("| " +:+ capitalize s +:+ " ")) true)]
      | done | done].
  - destruct header; apply emits_writeText.
Qed.

Lemma emits_try_normal_unit {A} (body : M A) catches handler a f l :
  emits body (Normal a) f l → emits (try_except body catches handler) (Normal a) f l.
Proof. intros Hb self. unfold try_except. by rewrite Hb. Qed.

Lemma emits_py_iter header_names headers :
  items_of header_names = Some headers →
  emits (py_iter header_names) (Normal headers) [] [].
Proof. intros H. unfold py_iter. rewrite H. apply emits_ret. Qed.

(** Lines 459-480 when the header names are used as given. *)
Lemma emits_addTable_headers_ok header_names headers dictionary_list
    useProvidedHeadernames capitalize_headers :
  items_of header_names = Some headers →
  useProvidedHeadernames = true ∨ truthy_list dictionary_list = false →
  capitalize_headers = false ∨ Forall (λ a, is_str a = true) headers →
  emits (addTable_headers header_names dictionary_list useProvidedHeadernames
           capitalize_headers)
        (Normal header_names)
        (["  " +:+ linesep] ++ header_fragments capitalize_headers headers
           ++ ["|  " +:+ linesep]) [].
Proof.
  intros Hiter Hkeep Hcap. unfold addTable_headers.
  assert (negb useProvidedHeadernames && truthy_list dictionary_list = false) as ->.
  { destruct Hkeep as [-> | ->]; [done | by destruct useProvidedHeadernames]. }
  eapply emits_eq;
    [eapply emits_seq; [apply (emits_writeTextLine ANone true)|];
     eapply emits_bind; [apply emits_ret|];
     eapply emits_seq;
       [apply emits_try_normal_unit;
        eapply emits_bind; [by apply emits_py_iter|];
        apply (emits_for_each_Forall _
                 (λ a, escape ("| " +:+ header_text capitalize_headers a +:+ " ")))
       | eapply emits_seq;
           [apply (emits_writeTextLine (AStr "|") true) | apply emits_ret]]
    | | done].
  - apply Forall_forall. intros a Ha. apply emits_addTable_header.
    destruct Hcap as [->|Hall]; [by left | right].
    by eapply Forall_forall in Hall.
  - reflexivity.
Qed.

Lemma emits_addTable_separator alignment header_names n :
  len_of header_names = Some n →
  emits (addTable_separator alignment header_names) (Normal ())
        [separator_fragment alignment n] (separator_logs alignment).
Proof.
  intros Hn. unfold addTable_separator, separator_fragment, separator_logs.
  destruct (String.eqb alignment "left");
    [|destruct (String.eqb alignment "center");
      [|destruct (String.eqb alignment "right")]].
  1-3: eapply emits_eq;
         [eapply emits_bind; [by apply emits_py_len|]; apply emits_writeTextLine
         | | reflexivity];
       unfold line_fragment, text_fragment, join; simpl;
       by rewrite append_empty_r.
  eapply emits_eq;
    [eapply emits_seq; [apply emits_log|];
     eapply emits_bind; [by apply emits_py_len|]; apply emits_writeTextLine
    | | reflexivity].
  unfold line_fragment, text_fragment, join; simpl.
  by rewrite append_empty_r.
Qed.

Lemma count_level_repeat l x n :
  x.1 = l → count_level l (repeat x n) = n.
Proof.
  intros Hx. unfold count_level. induction n as [|n IH]; simpl; [done|].
  rewrite filter_cons_True by done. simpl. by rewrite IH.
Qed.

Lemma count_level_separator_logs alignment :
  count_level ERROR (separator_logs alignment) = 0%nat.
Proof.
  unfold separator_logs.
  by destruct (String.eqb alignment "left"), (String.eqb alignment "center"),
    (String.eqb alignment "right").
Qed.

Lemma emits_def (body : M unit) r f l :
  emits body r f l →
  emits (def body) (match r with Returned => Normal () | _ => r end) f l.
Proof. intros Hb self. unfold def. rewrite Hb. by destruct r. Qed.

Lemma emits_try_uncaught {A} (body : M A) catches handler e f l :
  emits body (Raised e) f l → catches e = false →
  emits (try_except body catches handler) (Raised e) f l.
Proof. intros Hb Hc self. unfold try_except. by rewrite Hb, Hc. Qed.

Lemma emits_for_each_raised {A} (body : A → M unit) (frs : A → list string)
    (l1 : list A) a (l2 : list A) e f :
  Forall (λ x, emits (body x) (Normal ()) (frs x) []) l1 →
  emits (body a) (Raised e) f [] →
  emits (for_each (l1 ++ a :: l2) body) (Raised e) (flat_map frs l1 ++ f) [].
Proof.
  intros Hl1 Ha. induction Hl1 as [|x l1 Hx _ IH]; simpl.
  - by apply (emits_bind_raised (body a) (λ _, for_each l2 body)).
  - eapply emits_eq; [eapply emits_seq; [exact Hx | exact IH] | | done].
    by rewrite app_assoc.
Qed.

Lemma flat_map_fmap {A B C} (g : A → B) (f : B → list C) (l : list A) :
  flat_map f (g <$> l) = flat_map (λ x, f (g x)) l.
Proof. induction l as [|x l IH]; [done|]. simpl. f_equal. exact IH. Qed.

Lemma flat_map_singleton {A B} (g : A → B) (l : list A) :
  flat_map (λ x, [g x]) l = g <$> l.
Proof. induction l as [|x l IH]; simpl; [done | by rewrite IH]. Qed.

(** [addTable] from its stages, when the header row is written. *)
Lemma emits_addTable header_names row_elements alignment dictionary_list html_escape
    capitalize_headers useDictionaryList useProvidedHeadernames l_in hn f_h l_h r f_rest
    l_rest :
  emits (addTable_inputs header_names row_elements dictionary_list)
        (Normal (useDictionaryList, useProvidedHeadernames)) [] l_in →
  emits (addTable_headers header_names dictionary_list useProvidedHeadernames
           capitalize_headers) (Normal hn) f_h l_h →
  emits (addTable_separator alignment hn ;;
         addTable_body useDictionaryList hn row_elements dictionary_list html_escape ;;
         writeTextLine ANone true) r f_rest l_rest →
  emits (addTable header_names row_elements alignment dictionary_list html_escape
           capitalize_headers)
        (match r with Returned => Normal () | _ => r end)
        (f_h ++ f_rest) (l_in ++ l_h ++ l_rest).
Proof.
  intros Hin Hh Hrest. unfold addTable. apply emits_def.
  eapply emits_eq;
    [eapply emits_bind; [exact Hin|]; simpl; eapply emits_bind; [exact Hh | exact Hrest]
    | done | done].
Qed.

(** [addTable] from its stages, when the header row stops the call. *)
Lemma emits_addTable_stopped header_names row_elements alignment dictionary_list
    html_escape capitalize_headers useDictionaryList useProvidedHeadernames l_in r f_h
    l_h :
  emits (addTable_inputs header_names row_elements dictionary_list)
        (Normal (useDictionaryList, useProvidedHeadernames)) [] l_in →
  emits (addTable_headers header_names dictionary_list useProvidedHeadernames
           capitalize_headers) r f_h l_h →
  (∀ hn, r ≠ Normal hn) →
  emits (addTable header_names row_elements alignment dictionary_list html_escape
           capitalize_headers)
        (match r with Raised e => Raised e | _ => Normal () end)
        f_h (l_in ++ l_h).
Proof.
  intros Hin Hh Hr. unfold addTable.
  destruct r as [hn| |e]; [by destruct (Hr hn) | |].
  - apply emits_def_returned.
    eapply emits_eq;
      [eapply emits_bind; [exact Hin|]; simpl; apply emits_bind_returned; exact Hh
      | done | done].
  - apply (emits_def _ (Raised e)).
    eapply emits_eq;
      [eapply emits_bind; [exact Hin|]; simpl; apply emits_bind_raised; exact Hh
      | done | done].
Qed.

Lemma count_level_debug l logs :
  l ≠ DEBUG → Forall (λ x, x.1 = DEBUG) logs → count_level l logs = 0%nat.
Proof.
  intros Hl Hlogs. apply count_level_none.
  eapply Forall_impl; [exact Hlogs|]. simpl. intros x ->. done.
Qed.

(** X4: a table from [row_elements] whose header names can be iterated (a
    list, or a string, which gives one header per character): the call
    returns normally and writes, in this order, a blank line, one escaped cell
    per header, the closing bar, the row of dashes with one cell per header,
    the rows that have at most as many elements as there are headers, and a
    blank line; it logs one error per row that is left out. *)
Theorem addTable_renders_rows header_names headers rows alignment dictionary_list
    html_escape capitalize_headers :
  items_of header_names = Some headers →
  truthy header_names = true ∨ truthy_list dictionary_list = false →
  capitalize_headers = false ∨ Forall (λ a, is_str a = true) headers →
  ∃ logs,
    emits (addTable header_names (Some rows) alignment dictionary_list html_escape
             capitalize_headers)
          (Normal ())
          (["  " +:+ linesep] ++ header_fragments capitalize_headers headers
             ++ ["|  " +:+ linesep; separator_fragment alignment (length headers)]
             ++ flat_map (row_fragments html_escape)
                  (filter (λ row, (length row ≤ length headers)%nat) rows)
             ++ ["  " +:+ linesep])
          logs
    ∧ count_level ERROR logs
      = length (filter (λ row, (length headers < length row)%nat) rows).
Proof.
  intros Hiter Hkeep Hcap.
  pose proof (len_of_items _ _ Hiter) as Hlen.
  destruct (emits_addTable_inputs header_names (Some rows) dictionary_list)
    as (l_in & Hl_in & Hin); [by intros [? _]|].
  eexists. split.
  - eapply emits_eq;
      [eapply (emits_addTable _ _ _ _ _ _ _ _ _ _ _ _ (Normal ()));
         [exact Hin
         | by apply emits_addTable_headers_ok
         | eapply emits_seq; [by apply emits_addTable_separator|];
           eapply emits_seq; [|apply (emits_writeTextLine ANone true)];
           unfold addTable_body; simpl;
           eapply emits_bind; [apply emits_ret | by apply emits_addTable_rows]]
      | | reflexivity].
    simpl. by rewrite <- !app_assoc.
  - rewrite !count_level_app, (count_level_debug ERROR l_in) by done.
    rewrite count_level_separator_logs. simpl.
    rewrite count_level_repeat by done.
    unfold count_level. simpl. lia.
Qed.

Lemma addTable_renders_rows_witness :
  items_of (PAtom (AStr "xy")) = Some [AStr "x"; AStr "y"]
  ∧ ∃ logs,
      emits (addTable (PAtom (AStr "xy")) (Some [[int 1; str "<"]; [int 1; int 2; int 3]])
               "left" None false true)
            (Normal ())
            ["  " +:+ linesep; "| X "; "| Y "; "|  " +:+ linesep;
             "|:---|:---|  " +:+ linesep; "| 1 "; "| < "; "|  " +:+ linesep;
             "  " +:+ linesep]
            logs
      ∧ count_level ERROR logs = 1%nat.
Proof.
  split; [reflexivity|].
  apply (addTable_renders_rows (PAtom (AStr "xy")) [AStr "x"; AStr "y"]
           [[int 1; str "<"]; [int 1; int 2; int 3]] "left" None false true).
  - reflexivity.
  - left. reflexivity.
  - right. repeat constructor.
Defined.

(** Lines 459-480 when the header names are the keys of the first
    dictionary. *)
Lemma emits_addTable_headers_keys header_names d rest capitalize_headers :
  emits (addTable_headers header_names (Some (ODict d :: rest)) false capitalize_headers)
        (Normal (PList (AStr <$> d.*1)))
        (["  " +:+ linesep] ++ header_fragments capitalize_headers (AStr <$> d.*1)
           ++ ["|  " +:+ linesep])
        [(DEBUG, "Header names are: ")].
Proof.
  unfold addTable_headers. simpl.
  eapply emits_eq;
    [eapply emits_seq; [apply (emits_writeTextLine ANone true)|];
     eapply emits_bind;
       [apply emits_try_normal_unit;
        eapply emits_bind; [apply emits_ret|];
        eapply emits_bind; [apply emits_ret|];
        eapply emits_seq; [apply emits_log | apply emits_ret]
       |];
     eapply emits_seq;
       [apply emits_try_normal_unit;
        eapply emits_bind; [by apply emits_py_iter|];
        apply (emits_for_each_Forall _
                 (λ a, escape ("| " +:+ header_text capitalize_headers a +:+ " ")))
       | eapply emits_seq;
           [apply (emits_writeTextLine (AStr "|") true) | apply emits_ret]]
    | | done].
  - apply Forall_forall. intros a [s [-> _]]%list_elem_of_fmap.
    apply emits_addTable_header. by right.
  - reflexivity.
Qed.

(** With keys that are all different, going through the keys of a
    dictionary and looking each one up gives its values in order. *)
Lemma record_values_NoDup d : NoDup d.*1 → record_values d = d.*2.
Proof.
  unfold record_values, dict_lookup. intros Hnd.
  assert (∀ pre, (∀ k, k ∈ pre.*1 → k ∉ d.*1) →
            (λ key, default (PAtom ANone)
                      (snd <$> List.find (λ kv, String.eqb kv.1 key) (pre ++ d)))
              <$> d.*1 = d.*2) as Hgen.
  { induction d as [|[k v] d IH]; intros pre Hpre; [done|]. simpl.
    apply NoDup_cons in Hnd as [Hk Hnd]. f_equal.
    - assert (List.find (λ kv, String.eqb kv.1 k) (pre ++ (k, v) :: d) = Some (k, v))
        as ->; [|done].
      induction pre as [|[k' v'] pre IHpre]; simpl.
      + by rewrite String.eqb_refl.
      + destruct (String.eqb_spec k' k) as [->|_].
        * exfalso. apply (Hpre k); [left | left].
        * apply IHpre. intros k0 Hk0. apply Hpre. by right.
    - specialize (IH Hnd (pre ++ [(k, v)])).
      rewrite <- app_assoc in IH. apply IH.
      intros k0. rewrite fmap_app. intros [Hin|Hin]%elem_of_app.
      + intros Hd. apply (Hpre k0 Hin). by right.
      + apply list_elem_of_singleton in Hin as ->. done. }
  apply (Hgen []). by intros k ?%elem_of_nil.
Qed.

Lemma flat_map_record_values html_escape (rs : list (list (string * pyval))) :
  Forall (λ r, NoDup r.*1) rs →
  flat_map (λ r, row_fragments html_escape (record_values r)) rs
  = flat_map (λ r, row_fragments html_escape r.*2) rs.
Proof.
  induction 1 as [|r rs Hr _ IH]; [done|].
  cbn [flat_map]. by rewrite IH, (record_values_NoDup r Hr).
Qed.

(** [addTable] on dictionaries only. *)
Lemma emits_addTable_records_table header_names d ds alignment html_escape
    capitalize_headers :
  truthy header_names = false →
  emits (addTable header_names None alignment (Some (ODict <$> d :: ds)) html_escape
           capitalize_headers)
        (Normal ())
        (["  " +:+ linesep] ++ header_fragments capitalize_headers (AStr <$> d.*1)
           ++ ["|  " +:+ linesep; separator_fragment alignment (length d)]
           ++ flat_map (λ r, row_fragments html_escape (record_values r)) (d :: ds)
           ++ ["  " +:+ linesep])
        ([(DEBUG, "No header names provided. Using dictionary attribute names as default. Using none, if row_elements used.");
          (DEBUG, "Header names are: ")]
           ++ separator_logs alignment).
Proof.
  intros Hfalsy.
  assert (emits (addTable_inputs header_names None (Some (ODict <$> d :: ds)))
            (Normal (true, false)) []
            [(DEBUG, "No header names provided. Using dictionary attribute names as default. Using none, if row_elements used.")])
    as Hin.
  { unfold addTable_inputs. rewrite Hfalsy. simpl.
    eapply emits_eq;
      [eapply emits_bind; [apply emits_ret|];
       eapply emits_seq; [apply emits_ret|];
       eapply emits_seq; [apply emits_log | apply emits_ret]
      | done | done]. }
  eapply emits_eq;
    [eapply (emits_addTable _ _ _ _ _ _ _ _ _ _ _ _ (Normal ()));
       [exact Hin
       | apply emits_addTable_headers_keys
       | eapply emits_seq;
           [apply (emits_addTable_separator _ _ (length d)); simpl;
            by rewrite !length_fmap|];
         eapply emits_seq; [|apply (emits_writeTextLine ANone true)];
         unfold addTable_body; simpl;
         eapply emits_bind;
           [apply emits_ret | apply (emits_addTable_records html_escape (d :: ds))]]
    | | ].
  - simpl. by rewrite <- !app_assoc.
  - simpl. by rewrite !app_nil_r.
Qed.

(** X5: a table from a list of dictionaries, without header names and
    without [row_elements]: the header row is made of the keys of the first
    dictionary, and every dictionary gives one body row with one cell per
    value, in the order of its keys.  No dictionary is left out, whatever
    its number of keys, and nothing is logged above the debug level unless the
    alignment is not recognised. *)
Theorem addTable_renders_records header_names d ds alignment html_escape
    capitalize_headers :
  truthy header_names = false →
  Forall (λ r, NoDup r.*1) (d :: ds) →
  ∃ logs,
    emits (addTable header_names None alignment (Some (ODict <$> d :: ds)) html_escape
             capitalize_headers)
          (Normal ())
          (["  " +:+ linesep] ++ header_fragments capitalize_headers (AStr <$> d.*1)
             ++ ["|  " +:+ linesep; separator_fragment alignment (length d)]
             ++ flat_map (λ r, row_fragments html_escape r.*2) (d :: ds)
             ++ ["  " +:+ linesep])
          logs
    ∧ count_level ERROR logs = 0%nat.
Proof.
  intros Hfalsy Hnd. eexists. split.
  - eapply emits_eq;
      [by apply emits_addTable_records_table | | reflexivity].
    by rewrite (flat_map_record_values html_escape (d :: ds) Hnd).
  - rewrite count_level_app, count_level_separator_logs. done.
Qed.

Lemma addTable_renders_records_witness :
  truthy (PAtom ANone) = false
  ∧ ∃ logs,
      emits (addTable (PAtom ANone) None "right"
               (Some [ODict [("a", int 1); ("b", int 2)]; ODict [("a", int 3)]])
               true false)
            (Normal ())
            ["  " +:+ linesep; "| a "; "| b "; "|  " +:+ linesep;
             "|---:|---:|  " +:+ linesep; "| 1 "; "| 2 "; "|  " +:+ linesep;
             "| 3 "; "|  " +:+ linesep; "  " +:+ linesep]
            logs
      ∧ count_level ERROR logs = 0%nat.
Proof.
  split; [reflexivity|].
  apply (addTable_renders_records (PAtom ANone) [("a", int 1); ("b", int 2)]
           [[("a", int 3)]] "right" true false); [reflexivity|].
  apply (bool_decide_unpack _). vm_compute. exact I.
Defined.

(** ** Calls that stop part-way *)

Lemma emits_addTable_header_raised header :
  is_str header = false →
  emits (addTable_header true header)
        (Raised (no_attribute (PAtom header) "capitalize")) [] [].
Proof.
  intros Hstr. unfold addTable_header.
  destruct header as [| | |s]; try done;
    apply emits_bind_raised; apply emits_raise.
Qed.

(** X6: with [capitalize_headers], a header that is not a string makes
    [addTable] raise [AttributeError] (the handler around the header loop
    catches [TypeError] only); the blank line and the cells of the headers
    before it have been written and stay in the buffer, and nothing after
    them is written. *)
Theorem addTable_capitalize_raises before header after row_elements alignment
    dictionary_list html_escape :
  Forall (λ a, is_str a = true) before →
  is_str header = false →
  ¬ (row_elements = None ∧ dictionary_list = None) →
  ∃ logs,
    emits (addTable (PList (before ++ header :: after)) row_elements alignment
             dictionary_list html_escape true)
          (Raised (no_attribute (PAtom header) "capitalize"))
          (["  " +:+ linesep] ++ header_fragments true before)
          logs
    ∧ Forall (λ x, x.1 = DEBUG) logs.
Proof.
  intros Hbefore Hheader Hgiven.
  destruct (emits_addTable_inputs (PList (before ++ header :: after)) row_elements
              dictionary_list Hgiven) as (l_in & Hl_in & Hin).
  assert (truthy (PList (before ++ header :: after)) = true) as Ht
    by (by destruct before).
  rewrite Ht in Hin.
  exists (l_in ++ []). split; [|by rewrite app_nil_r].
  apply (emits_addTable_stopped _ _ _ _ _ _ _ _ _
           (Raised (no_attribute (PAtom header) "capitalize")) _ _ Hin); [|done].
  unfold addTable_headers. simpl.
  eapply emits_eq;
    [eapply emits_seq; [apply (emits_writeTextLine ANone true)|];
     eapply emits_bind; [apply emits_ret|];
     apply emits_bind_raised;
     apply emits_try_uncaught; [|done];
     eapply emits_bind; [by apply emits_py_iter|];
     apply (emits_for_each_raised _ (λ a, [escape ("| " +:+ header_text true a +:+ " ")]));
       [|by apply emits_addTable_header_raised]
    | | done].
  - eapply Forall_impl; [exact Hbefore|]. cbv beta. intros a Ha.
    apply (emits_addTable_header true a). by right.
  - simpl. unfold header_fragments. by rewrite flat_map_singleton, app_nil_r.
Qed.

Lemma addTable_capitalize_raises_witness :
  is_str (AInt 2) = false
  ∧ ∃ logs,
      emits (addTable (PList [AStr "a"; AInt 2; AStr "c"]) (Some [[int 1]]) "center" None
               true true)
            (Raised (no_attribute (PAtom (AInt 2)) "capitalize"))
            ["  " +:+ linesep; "| A "]
            logs
      ∧ Forall (λ x, x.1 = DEBUG) logs.
Proof.
  split; [reflexivity|].
  apply (addTable_capitalize_raises [AStr "a"] (AInt 2) [AStr "c"] (Some [[int 1]])
           "center" None true).
  - repeat constructor.
  - reflexivity.
  - intros [H _]. discriminate H.
Defined.

(** X7: when the header names are to come from [dictionary_list] and its
    first element is not a dictionary, the [AttributeError] of [keys] is
    caught: [addTable] logs one error, returns normally and has written
    only the blank line, whether or not [row_elements] is given. *)
Theorem addTable_first_record_not_dict header_names row_elements alignment v rest
    html_escape capitalize_headers :
  truthy header_names = false →
  ∃ logs,
    emits (addTable header_names row_elements alignment (Some (OVal v :: rest))
             html_escape capitalize_headers)
          (Normal ()) ["  " +:+ linesep]
          (logs ++ [(ERROR, "Dictionary list for addTable function was not list of objects. Table not generated. : ")])
    ∧ Forall (λ x, x.1 = DEBUG) logs.
Proof.
  intros Hfalsy.
  destruct (emits_addTable_inputs header_names row_elements (Some (OVal v :: rest)))
    as (l_in & Hl_in & Hin); [by intros [_ ?]|].
  rewrite Hfalsy in Hin.
  exists l_in. split; [|done].
  apply (emits_addTable_stopped _ _ _ _ _ _ _ _ _ Returned _ _ Hin); [|done].
  unfold addTable_headers. simpl.
  eapply emits_eq;
    [eapply emits_seq; [apply (emits_writeTextLine ANone true)|];
     apply emits_bind_returned;
     eapply emits_try_caught;
       [eapply emits_bind; [apply emits_ret|];
        apply emits_bind_raised; apply emits_raise
       | reflexivity
       | eapply emits_seq; [apply emits_log | apply emits_return]]
    | done | done].
Qed.

Lemma addTable_first_record_not_dict_witness :
  truthy (PAtom ANone) = false
  ∧ ∃ logs,
      emits (addTable (PAtom ANone) (Some [[int 1]]) "center"
               (Some [OVal (int 7); ODict [("a", int 1)]]) true false)
            (Normal ()) ["  " +:+ linesep]
            (logs ++ [(ERROR, "Dictionary list for addTable function was not list of objects. Table not generated. : ")])
      ∧ Forall (λ x, x.1 = DEBUG) logs.
Proof.
  split; [reflexivity|].
  apply (addTable_first_record_not_dict (PAtom ANone) (Some [[int 1]]) "center" (int 7)
           [ODict [("a", int 1)]] true false).
  reflexivity.
Defined.

Lemma emits_addTable_record_raised html_escape v :
  emits (addTable_record html_escape (OVal v)) (Raised (no_attribute v "keys")) [] [].
Proof. unfold addTable_record. apply emits_bind_raised. apply emits_raise. Qed.

(** X8: in a table from dictionaries only, an element after the first that
    is not a dictionary makes [addTable] raise [AttributeError]; the header
    row, the row of dashes and the rows of the dictionaries before that
    element have been written and stay in the buffer; the closing blank line
    is not written. *)
Theorem addTable_later_record_not_dict header_names d ds v rest alignment html_escape
    capitalize_headers :
  truthy header_names = false →
  ∃ logs,
    emits (addTable header_names None alignment
             (Some ((ODict <$> d :: ds) ++ OVal v :: rest)) html_escape
             capitalize_headers)
          (Raised (no_attribute v "keys"))
          (["  " +:+ linesep] ++ header_fragments capitalize_headers (AStr <$> d.*1)
             ++ ["|  " +:+ linesep; separator_fragment alignment (length d)]
             ++ flat_map (λ r, row_fragments html_escape (record_values r)) (d :: ds))
          logs
    ∧ count_level ERROR logs = 0%nat.
Proof.
  intros Hfalsy.
  destruct (emits_addTable_inputs header_names None
              (Some ((ODict <$> d :: ds) ++ OVal v :: rest)))
    as (l_in & Hl_in & Hin); [by intros [_ ?]|].
  rewrite Hfalsy in Hin. simpl in Hin.
  eexists. split.
  - eapply emits_eq;
      [eapply (emits_addTable _ _ _ _ _ _ _ _ _ _ _ _ (Raised (no_attribute v "keys")));
         [exact Hin
         | apply emits_addTable_headers_keys
         | eapply emits_seq;
             [apply (emits_addTable_separator _ _ (length d)); simpl;
              by rewrite !length_fmap|];
           apply (emits_bind_raised _ (λ _, writeTextLine ANone true));
           unfold addTable_body; simpl;
           eapply emits_bind; [apply emits_ret|];
           apply (emits_for_each_raised (addTable_record html_escape)
                    (λ o, match o with
                          | ODict r => row_fragments html_escape (record_values r)
                          | OVal _ => []
                          end) (ODict d :: (ODict <$> ds)));
             [|apply emits_addTable_record_raised]]
      | | reflexivity].
    + apply Forall_forall. intros o Ho.
      change (ODict d :: (ODict <$> ds)) with (ODict <$> d :: ds) in Ho.
      apply list_elem_of_fmap in Ho as (r & -> & _).
      apply emits_addTable_record.
    + change (ODict d :: (ODict <$> ds)) with (ODict <$> d :: ds).
      rewrite (flat_map_fmap ODict), app_nil_r, <- !app_assoc. reflexivity.
  - rewrite !count_level_app, (count_level_debug ERROR l_in) by done.
    simpl. rewrite count_level_separator_logs. done.
Qed.

Lemma addTable_later_record_not_dict_witness :
  truthy (PAtom ANone) = false
  ∧ ∃ logs,
      emits (addTable (PAtom ANone) None "center"
               (Some [ODict [("a", int 1)]; OVal (int 7); ODict [("a", int 2)]])
               true false)
            (Raised (no_attribute (int 7) "keys"))
            ["  " +:+ linesep; "| a "; "|  " +:+ linesep; "|:---:|  " +:+ linesep;
             "| 1 "; "|  " +:+ linesep]
            logs
      ∧ count_level ERROR logs = 0%nat.
Proof.
  split; [reflexivity|].
  apply (addTable_later_record_not_dict (PAtom ANone) [("a", int 1)] [] (int 7)
           [ODict [("a", int 2)]] "center" true false).
  reflexivity.
Defined.

(** ** Code blocks *)

Lemma append_cons c s t : String c s +:+ t = String c (s +:+ t).
Proof. reflexivity. Qed.

Lemma replace_backtick_head text rest :
  replace "`"%char "\`" text ≠ String "`"%char rest.
Proof.
  destruct text as [|c text]; [done|]. simpl.
  destruct (Ascii.eqb_spec c "`"%char) as [->|Hc].
  - rewrite append_cons. discriminate.
  - intros [= Heq _]. done.
Qed.

Lemma replace_backtick_no_pair text pre post :
  replace "`"%char "\`" text ≠ pre +:+ "``" +:+ post.
Proof.
  revert pre. induction text as [|c text IH]; intros pre H.
  - destruct pre; discriminate H.
  - simpl in H. destruct (Ascii.eqb_spec c "`"%char) as [->|Hc].
    + rewrite !append_cons in H. change ("" +:+ ?s) with s in H.
      destruct pre as [|x [|y pre]].
      * discriminate H.
      * rewrite !append_cons in H. injection H as _ H.
        by apply replace_backtick_head in H.
      * rewrite !append_cons in H. injection H as _ _ H. by apply IH in H.
    + destruct pre as [|x pre].
      * rewrite !append_cons in H. injection H as H _. done.
      * rewrite append_cons in H. injection H as _ H. by apply IH in H.
Qed.

(** X9: [addCodeBlock] writes one fragment, the text between two fences,
    in which every backtick of the text has a backslash before it; so no two
    backticks of the text are next to each other any more, and the text
    cannot contain the closing fence. *)
Theorem addCodeBlock_fence_safe text syntax :
  emits (addCodeBlock text syntax false) (Normal ())
        [(CODE_BLOCK +:+ py_str syntax +:+ linesep +:+ replace "`"%char "\`" text
          +:+ linesep +:+ CODE_BLOCK) +:+ "  " +:+ linesep] []
  ∧ (∀ pre post, replace "`"%char "\`" text ≠ pre +:+ "``" +:+ post)
  ∧ (∀ rest, replace "`"%char "\`" text ≠ String "`"%char rest).
Proof.
  split_and!.
  - unfold addCodeBlock.
    apply (emits_writeTextLine
             (AStr (CODE_BLOCK +:+ py_str syntax +:+ linesep
                    +:+ replace "`"%char "\`" text +:+ linesep +:+ CODE_BLOCK)) false).
  - intros pre post. apply replace_backtick_no_pair.
  - intros rest. apply replace_backtick_head.
Qed.

(** ** Escaping and fragments *)

Lemma append_assoc (a b c : string) : (a +:+ b) +:+ c = a +:+ (b +:+ c).
Proof.
  induction a as [|x a IH]; [done|].
  rewrite !append_cons. by rewrite IH.
Qed.

Lemma replace_app c r a b :
  replace c r (a +:+ b) = replace c r a +:+ replace c r b.
Proof.
  induction a as [|x a IH]; [done|].
  rewrite append_cons. simpl. rewrite IH.
  destruct (Ascii.eqb x c); [by rewrite append_assoc | by rewrite append_cons].
Qed.

Lemma escape_app a b : escape (a +:+ b) = escape a +:+ escape b.
Proof. unfold escape. by rewrite !replace_app. Qed.

Lemma text_of_app l1 l2 : text_of (l1 ++ l2) = text_of l1 +:+ text_of l2.
Proof.
  unfold text_of, join. induction l1 as [|x l1 IH]; [done|].
  simpl. by rewrite IH, append_assoc.
Qed.

(** X10: writing a text in two pieces gives the same document as writing
    it in one piece, with or without escaping: escaping works character by
    character, so it does not matter where a text is cut. *)
Theorem writeText_in_pieces a b html_escape self :
  text_of (document_data_array
             ((writeText (AStr a) html_escape ;; writeText (AStr b) html_escape) self).2)
  = text_of (document_data_array (writeText (AStr (a +:+ b)) html_escape self).2)
  ∧ text_of (document
               ((writeText (AStr a) html_escape ;; writeText (AStr b) html_escape) self).2)
    = text_of (document (writeText (AStr (a +:+ b)) html_escape self).2).
Proof.
  pose proof (emits_seq _ _ _ _ _ _ _ _
                (emits_writeText (AStr a) html_escape)
                (emits_writeText (AStr b) html_escape)) as Htwo.
  rewrite (Htwo self), (emits_writeText (AStr (a +:+ b)) html_escape self).
  assert (text_of [text_fragment (AStr a) html_escape; text_fragment (AStr b) html_escape]
          = text_of [text_fragment (AStr (a +:+ b)) html_escape]) as Heq.
  { unfold text_fragment, text_of, join. simpl.
    destruct html_escape; by rewrite ?escape_app, append_assoc. }
  unfold emit; simpl. split.
  - by rewrite !text_of_app, Heq.
  - destruct (enable_write self); [|done]. by rewrite !text_of_app, Heq.
Qed.

Lemma occurs_app c a b : occurs c (a +:+ b) = occurs c a || occurs c b.
Proof.
  induction a as [|x a IH]; [done|].
  rewrite append_cons. simpl. rewrite IH. by rewrite orb_assoc.
Qed.

Lemma occurs_replace_same c r s :
  occurs c r = false → occurs c (replace c r s) = false.
Proof.
  intros Hr. induction s as [|x s IH]; [done|]. simpl.
  destruct (Ascii.eqb x c) eqn:Hx.
  - by rewrite occurs_app, Hr, IH.
  - simpl. by rewrite Hx, IH.
Qed.

Lemma occurs_replace_other c c' r s :
  occurs c s = false → occurs c r = false → occurs c (replace c' r s) = false.
Proof.
  intros Hs Hr. induction s as [|x s IH]; [done|].
  simpl in Hs. apply orb_false_elim in Hs as [Hx Hs]. simpl.
  destruct (Ascii.eqb x c').
  - by rewrite occurs_app, Hr, IH.
  - simpl. by rewrite Hx, IH.
Qed.

Lemma occurs_escape s :
  Forall (λ c, occurs c (escape s) = false) ["<"%char; ">"%char; quot; apos].
Proof.
  unfold escape. repeat constructor.
  - do 3 (apply occurs_replace_other; [|done]). by apply occurs_replace_same.
  - do 2 (apply occurs_replace_other; [|done]). by apply occurs_replace_same.
  - apply occurs_replace_other; [|done]. by apply occurs_replace_same.
  - by apply occurs_replace_same.
Qed.

Lemma occurs_line c text :
  occurs c (escape (py_str text)) = false → occurs c ("  " +:+ linesep) = false →
  occurs c (line_fragment text true) = false.
Proof.
  intros Hc Hsp. unfold line_fragment, text_fragment.
  destruct text; try done; by rewrite occurs_app, Hc, Hsp.
Qed.

(** X11: what [writeText] and [writeTextLine] write with [html_escape]
    contains none of the characters <, >, double quote and apostrophe,
    whatever the text is. *)
Theorem escaped_text_has_no_markup text :
  emits (writeText text true) (Normal ()) [text_fragment text true] []
  ∧ emits (writeTextLine text true) (Normal ()) [line_fragment text true] []
  ∧ Forall (λ c, occurs c (text_fragment text true) = false
                 ∧ occurs c (line_fragment text true) = false)
      ["<"%char; ">"%char; quot; apos].
Proof.
  split_and!; [apply emits_writeText | apply emits_writeTextLine |].
  pose proof (occurs_escape (py_str text)) as H.
  apply Forall_cons in H as [H1 H]. apply Forall_cons in H as [H2 H].
  apply Forall_cons in H as [H3 H]. apply Forall_cons in H as [H4 _].
  repeat constructor; try done; by apply occurs_line.
Qed.

(** ** Emphasis *)

Lemma lstrip_cons c s : is_space c = false → lstrip (String c s) = String c s.
Proof. intros Hc. simpl. by rewrite Hc. Qed.

Lemma rstrip_snoc s c :
  is_space c = false → rstrip (s +:+ String c "") = s +:+ String c "".
Proof.
  intros Hc. induction s as [|x s IH].
  - simpl. by rewrite Hc.
  - rewrite append_cons. simpl. rewrite IH.
    destruct s; by rewrite ?append_cons.
Qed.

(** A text that begins and ends with a character that is not white space is
    left as it is by [strip]. *)
Lemma strip_framed c1 s c2 :
  is_space c1 = false → is_space c2 = false →
  strip (String c1 (s +:+ String c2 "")) = String c1 (s +:+ String c2 "").
Proof.
  intros H1 H2. unfold strip. rewrite lstrip_cons by done.
  by apply (rstrip_snoc (String c1 s) c2).
Qed.

Lemma lstrip_head s :
  lstrip s = "" ∨ ∃ c r, lstrip s = String c r ∧ is_space c = false.
Proof.
  induction s as [|c s IH]; [by left|]. simpl.
  destruct (is_space c) eqn:Hc; [exact IH|]. right. by exists c, s.
Qed.

Lemma rstrip_cons c s :
  rstrip (String c s)
  = match rstrip s with
    | EmptyString => if is_space c then "" else String c ""
    | r => String c r
    end.
Proof. reflexivity. Qed.

Lemma rstrip_idem s : rstrip (rstrip s) = rstrip s.
Proof.
  induction s as [|c s IH]; [done|]. rewrite rstrip_cons.
  destruct (rstrip s) as [|x r] eqn:Hr.
  - destruct (is_space c) eqn:Hc; [done|]. rewrite rstrip_cons. simpl. by rewrite Hc.
  - rewrite rstrip_cons. by rewrite IH.
Qed.

Lemma rstrip_head c s :
  is_space c = false → ∃ r, rstrip (String c s) = String c r.
Proof.
  intros Hc. simpl. destruct (rstrip s); [rewrite Hc|]; by eexists.
Qed.

Lemma strip_idem s : strip (strip s) = strip s.
Proof.
  unfold strip. destruct (lstrip_head s) as [->|(c & r & -> & Hc)]; [done|].
  destruct (rstrip_head c r Hc) as [r' Hr]. rewrite Hr.
  rewrite lstrip_cons by done. rewrite <- Hr. apply rstrip_idem.
Qed.

(** X12: the emphasis methods compose and ignore surrounding white space:
    italicizing a bolded text, or bolding an italicized text, returns what
    [addBoldedAndItalicizedText] returns for the text, and a text that was
    stripped already gives the same result; none of this writes anything
    when [write_as_line] is false. *)
Theorem emphasis_composes text self :
  (let! bolded := addBoldedText text false in addItalicizedText bolded false) self
  = addBoldedAndItalicizedText text false self
  ∧ (let! italicized := addItalicizedText text false in
     addBoldedText italicized false) self
    = addBoldedAndItalicizedText text false self
  ∧ addBoldedAndItalicizedText text false self
    = (Normal ("***" +:+ strip text +:+ "***"), self)
  ∧ addBoldedText (strip text) false self = addBoldedText text false self.
Proof.
  assert (∀ t, strip ("**" +:+ t +:+ "**") = "**" +:+ t +:+ "**") as Hbold.
  { intros t.
    change ("**" +:+ t +:+ "**") with (String "*" (String "*" (t +:+ "**"))).
    replace (String "*" (t +:+ "**")) with (String "*" (t +:+ "*") +:+ "*")
      by (by rewrite append_cons, append_assoc).
    by apply strip_framed. }
  assert (∀ t, strip ("*" +:+ t +:+ "*") = "*" +:+ t +:+ "*") as Hitalic.
  { intros t. change ("*" +:+ t +:+ "*") with (String "*" (t +:+ "*")).
    by apply strip_framed. }
  split_and!.
  - unfold addBoldedText, addItalicizedText, addBoldedAndItalicizedText, bind,
      mbind, M_bind, bind, pass, mret, M_ret.
    rewrite Hbold. do 2 f_equal.
    change ("***" +:+ ?s) with ("*" +:+ "**" +:+ s).
    by rewrite !append_assoc.
  - unfold addBoldedText, addItalicizedText, addBoldedAndItalicizedText, bind,
      mbind, M_bind, bind, pass, mret, M_ret.
    rewrite Hitalic. do 2 f_equal.
    change ("***" +:+ ?s) with ("**" +:+ "*" +:+ s).
    by rewrite !append_assoc.
  - reflexivity.
  - unfold addBoldedText, mbind, M_bind, bind, pass, mret, M_ret.
    by rewrite strip_idem.
Qed.

(** ** Objects shared between instances *)

(** X13: what a nested instance shares with its parent.  [__init__] keeps a
    passed [footnote_index] that holds a value, so the counter is shared; it
    keeps a passed [pending_footnote_references] only when that list is not
    empty: a nested instance that is created while the parent's list is still
    empty gets a new list of its own, and the parent's list stays as it
    is. *)
Theorem init_shares_nonempty (σ : gmap nat Footnotes.object) fi pr d v l :
  σ !! fi = Some (Footnotes.Dict d) →
  d !! "value" = Some v →
  σ !! pr = Some (Footnotes.Notes l) →
  ∃ b σ',
    Footnotes.init (Some pr) (Some fi) σ = (b, σ')
    ∧ Footnotes.footnote_index b = fi
    ∧ (∀ k o, σ !! k = Some o → σ' !! k = Some o)
    ∧ (l ≠ [] → Footnotes.pending_footnote_references b = pr ∧ σ' = σ)
    ∧ (l = [] →
       Footnotes.pending_footnote_references b ≠ pr
       ∧ σ !! Footnotes.pending_footnote_references b = None
       ∧ σ' !! Footnotes.pending_footnote_references b = Some (Footnotes.Notes [])).
Proof.
  intros Hfi Hv Hpr. unfold Footnotes.init.
  rewrite (FootnoteProofs.truthy_counter _ _ _ _ Hfi Hv).
  cbv beta iota zeta delta [default].
  unfold Footnotes.truthy_ref. rewrite Hpr.
  destruct l as [|x l].
  - unfold Footnotes.alloc. set (l2 := fresh (dom σ)).
    assert (σ !! l2 = None) as Hl2 by apply not_elem_of_dom, is_fresh.
    eexists _, _. split_and!; [done | done | | done |]; simpl.
    + intros k o Hk. rewrite lookup_insert_ne; [done | congruence].
    + intros _. split_and!; [congruence | done | apply lookup_insert_eq].
  - eexists _, _. split_and!; [done | done | done | done | done].
Qed.

Lemma init_shares_nonempty_witness :
  ∃ b σ',
    Footnotes.init (Some 1%nat) (Some 0%nat)
      (<[1%nat := Footnotes.Notes []]>
         (<[0%nat := Footnotes.Dict {["value" := 0%Z]}]> ∅))
    = (b, σ')
    ∧ Footnotes.footnote_index b = 0%nat.
Proof.
  destruct (init_shares_nonempty
              (<[1%nat := Footnotes.Notes []]>
                 (<[0%nat := Footnotes.Dict {["value" := 0%Z]}]> ∅))
              0%nat 1%nat {["value" := 0%Z]} 0%Z [])
    as (b & σ' & Hinit & Hfi & _); [reflexivity..|].
  by exists b, σ'.
Defined.

(** ** Header names given together with dictionaries *)

(** X14: in a table from dictionaries, header names that are given replace
    the keys in the header row, and the number of columns is not checked
    against them: every dictionary gives a body row with one cell per value,
    also when it has more values than there are header names, and no error
    is logged. *)
Theorem addTable_headers_override_keys header_names headers ds alignment html_escape
    capitalize_headers :
  items_of header_names = Some headers →
  truthy header_names = true →
  capitalize_headers = false ∨ Forall (λ a, is_str a = true) headers →
  ∃ logs,
    emits (addTable header_names None alignment (Some (ODict <$> ds)) html_escape
             capitalize_headers)
          (Normal ())
          (["  " +:+ linesep] ++ header_fragments capitalize_headers headers
             ++ ["|  " +:+ linesep; separator_fragment alignment (length headers)]
             ++ flat_map (λ r, row_fragments html_escape (record_values r)) ds
             ++ ["  " +:+ linesep])
          logs
    ∧ count_level ERROR logs = 0%nat.
Proof.
  intros Hiter Ht Hcap.
  pose proof (len_of_items _ _ Hiter) as Hlen.
  destruct (emits_addTable_inputs header_names None (Some (ODict <$> ds)))
    as (l_in & Hl_in & Hin); [by intros [_ ?]|].
  rewrite Ht in Hin. simpl in Hin.
  eexists. split.
  - eapply emits_eq;
      [eapply (emits_addTable _ _ _ _ _ _ _ _ _ _ _ _ (Normal ()));
         [exact Hin
         | apply emits_addTable_headers_ok; [done | by left | done]
         | eapply emits_seq; [by apply emits_addTable_separator|];
           eapply emits_seq; [|apply (emits_writeTextLine ANone true)];
           unfold addTable_body; simpl;
           eapply emits_bind; [apply emits_ret | apply emits_addTable_records]]
      | | reflexivity].
    simpl. by rewrite <- !app_assoc.
  - rewrite !count_level_app, (count_level_debug ERROR l_in) by done.
    rewrite count_level_separator_logs. done.
Qed.

Lemma addTable_headers_override_keys_witness :
  items_of (PList [AStr "only"]) = Some [AStr "only"]
  ∧ ∃ logs,
      emits (addTable (PList [AStr "only"]) None "center"
               (Some [ODict [("a", int 1); ("b", int 2)]]) true false)
            (Normal ())
            ["  " +:+ linesep; "| only "; "|  " +:+ linesep; "|:---:|  " +:+ linesep;
             "| 1 "; "| 2 "; "|  " +:+ linesep; "  " +:+ linesep]
            logs
      ∧ count_level ERROR logs = 0%nat.
Proof.
  split; [reflexivity|].
  apply (addTable_headers_override_keys (PList [AStr "only"]) [AStr "only"]
           [[("a", int 1); ("b", int 2)]] "center" true false).
  - reflexivity.
  - reflexivity.
  - by left.
Defined.
